(** * Template filling with clickable links: a shallow embedding of [app.py]

    The development follows the four helpers of the section
    "PPT HELPER FUNCTIONS WITH CLICKABLE LINKS" of [app.py]:
    [add_hyperlink_to_run], [find_and_replace_in_text_frame],
    [find_and_replace_in_shape] and [replace_placeholders_in_ppt].

    Python objects mutated in place become values passed through and
    returned; exceptions become an explicit outcome of a small state and
    exception monad.  A Python string is held as the bytes of its UTF-8
    encoding.

    The presentation library is not part of the program.  It is taken by
    what its calls do to the document:
    - the first access to [run.font] gives the run its [a:rPr] element;
    - reading [run.font.color] turns a fill of the run that is not solid
      (none, a gradient, a pattern) into an empty [a:solidFill];
    - [run.text = s] escapes the control characters of [s] as [_xHHHH_]
      and raises [ValueError] when what is left cannot be put in XML;
    - [hasattr(shape, name)] is true or false, or raises when the
      attribute is a property that raises something else than
      [AttributeError], as [table] does on a graphic frame that holds a
      chart;
    - [part.relate_to(url, type, is_external=True)] gives the relationship
      of the part to that URL if it has one already and adds one
      otherwise.
    Inside [add_hyperlink_to_run], which guards its library calls with
    [try], every call may raise, as the environment decides.  [print]
    returns. *)

From Stdlib Require Import ZArith String Ascii List Bool Lia.
From stdpp Require Import base option list gmap strings.

Open Scope string_scope.
#[global] Arguments String.append !_ _ / : simpl nomatch.

(** ** Python strings

    The three [str] operations the code uses, [k in s], [s.replace(k, v)]
    and truthiness, and two more, [s.find(k)] and [k.join(parts)], to say
    where a key occurs in a text. *)

Module Str.

(** [sub in s]: some suffix of [s] starts with [sub]. *)
Fixpoint contains (sub s : string) : bool :=
  String.prefix sub s ||
  match s with
  | EmptyString => false
  | String _ s' => contains sub s'
  end.

(** [s.find(sub)], with [None] for Python's [-1]. *)
Fixpoint find (sub s : string) : option nat :=
  if String.prefix sub s then Some O
  else match s with
       | EmptyString => None
       | String _ s' => option_map S (find sub s')
       end.

(** [drop n s] is [s[n:]]. *)
Fixpoint drop (n : nat) (s : string) : string :=
  match n, s with
  | O, _ => s
  | S _, EmptyString => EmptyString
  | S n', String _ s' => drop n' s'
  end.

(** Left-to-right scan of [s.replace(old, new)] for a non-empty [old]:
    [skip] counts the characters of a match that are still to be passed
    over. *)
Fixpoint replace_scan (old new : string) (skip : nat) (s : string) : string :=
  match s with
  | EmptyString => EmptyString
  | String c s' =>
      match skip with
      | S k => replace_scan old new k s'
      | O =>
          if String.prefix old s
          then new ++ replace_scan old new (String.length old - 1) s'
          else String c (replace_scan old new O s')
      end
  end.

(** With an empty [old], Python puts [new] before every character and
    at the end. *)
Fixpoint interleave (new s : string) : string :=
  match s with
  | EmptyString => new
  | String c s' => new ++ String c (interleave new s')
  end.

(** [s.replace(old, new)] *)
Definition replace (old new s : string) : string :=
  match old with
  | EmptyString => interleave new s
  | String _ _ => replace_scan old new O s
  end.

(** [bool(s)] *)
Definition truthy (s : string) : bool :=
  match s with
  | EmptyString => false
  | String _ _ => true
  end.

(** [sep.join(parts)] *)
Fixpoint join (sep : string) (parts : list string) : string :=
  match parts with
  | [] => EmptyString
  | [p] => p
  | p :: rest => p ++ sep ++ join sep rest
  end.

End Str.

(** ** Placeholder tokens

    A key of the replacement mapping is written [{{name}}], where [name]
    holds no brace. *)

Fixpoint lacks (c : ascii) (s : string) : bool :=
  match s with
  | EmptyString => true
  | String d s' => negb (Ascii.eqb c d) && lacks c s'
  end.

(** [closes s]: [s] is a brace-free name followed by the two closing
    braces. *)
Fixpoint closes (s : string) : bool :=
  match s with
  | EmptyString => false
  | String c s' =>
      if Ascii.eqb c "}" then String.eqb s' "}"
      else if Ascii.eqb c "{" then false
      else closes s'
  end.

Definition is_placeholder (s : string) : bool :=
  match s with
  | String c1 (String c2 s') => Ascii.eqb c1 "{" && Ascii.eqb c2 "{" && closes s'
  | _ => false
  end.

(** ** The text that the library puts in a run

    [run.text = s] goes through the run element, which escapes control
    characters, and through the XML library, which refuses what XML
    cannot hold. *)

Module Xml.

(** The characters that the run element escapes, [[\x00-\x08\x0B-\x1F]]:
    the control characters but tab and line feed. *)
Definition is_control (c : ascii) : bool :=
  let n := N_of_ascii c in
  ((n <=? 8) || ((11 <=? n) && (n <=? 31)))%N.

Definition hex_digit (n : N) : ascii :=
  ascii_of_N (if (n <? 10)%N then 48 + n else 55 + n).

(** ["_x%04X_" % ord(c)] *)
Definition escaped (c : ascii) : string :=
  let n := N_of_ascii c in
  "_x00" ++ String (hex_digit (n / 16)) (String (hex_digit (n mod 16)) "_").

Fixpoint escape (s : string) : string :=
  match s with
  | EmptyString => EmptyString
  | String c s' =>
      if is_control c then escaped c ++ escape s' else String c (escape s')
  end.

(** A character of XML below 128: tab, line feed, carriage return, or a
    blank and above. *)
Definition is_char (c : ascii) : bool :=
  let n := N_of_ascii c in
  ((n =? 9) || (n =? 10) || (n =? 13) || (32 <=? n))%N.

(** Three bytes that encode U+FFFE, U+FFFF or a surrogate, U+D800 to
    U+DFFF. *)
Definition forbidden (a b c : ascii) : bool :=
  let next3 := (N_of_ascii a * 65536 + N_of_ascii b * 256 + N_of_ascii c)%N in
  ((next3 =? 15712190) || (next3 =? 15712191) ||
   ((15573120 <=? next3) && (next3 <=? 15581119)))%N.

(** The check of the XML library on the encoded text. *)
Fixpoint compatible (s : string) : bool :=
  match s with
  | EmptyString => true
  | String a s1 =>
      (if (N_of_ascii a <? 128)%N then is_char a
       else match s1 with
            | String b (String c _) => negb (forbidden a b c)
            | _ => true
            end) && compatible s1
  end.

(** What a run holds after [run.text = s], if the assignment returns. *)
Definition written (s : string) : option string :=
  if compatible (escape s) then Some (escape s) else None.

(** No character of [s] is escaped. *)
Fixpoint clean (s : string) : bool :=
  match s with
  | EmptyString => true
  | String c s' => negb (is_control c) && clean s'
  end.

End Xml.

(** ** The document objects

    The objects of the presentation library, with the attributes the code
    reads and writes. *)

(** [RGBColor(r, g, b)] *)
Record RGBColor := mkRGB { red : Z; green : Z; blue : Z }.

(** The colour inside an [a:solidFill]: [a:srgbClr], [a:schemeClr], or
    one of the other kinds, by its number in [MSO_COLOR_TYPE]. *)
Inductive Color :=
| RGB (rgb : RGBColor)
| SchemeColor (theme_color : Z)
| OtherColor (kind : Z).

(** The fill of a run, in its [a:rPr]: no fill element (the colour is
    inherited), an [a:solidFill] with a colour or empty, or another fill
    element ([a:noFill], [a:gradFill], [a:pattFill], ...), by its number
    in [MSO_FILL]. *)
Inductive Fill :=
| FillInherited
| SolidFill (color : option Color)
| OtherFill (kind : Z).

(** [font.color.type]: [None], or a member of [MSO_COLOR_TYPE] ([RGB] is
    1, [SCHEME] is 2). *)
Definition color_type (f : Fill) : option Z :=
  match f with
  | SolidFill (Some (RGB _)) => Some 1%Z
  | SolidFill (Some (SchemeColor _)) => Some 2%Z
  | SolidFill (Some (OtherColor k)) => Some k
  | _ => None
  end.

(** [font.color.rgb] *)
Definition color_rgb (f : Fill) : option RGBColor :=
  match f with
  | SolidFill (Some (RGB rgb)) => Some rgb
  | _ => None
  end.

(** [fill.solid()], which [font.color] calls on a fill that is not
    solid. *)
Definition solid (f : Fill) : Fill :=
  match f with
  | SolidFill c => SolidFill c
  | _ => SolidFill None
  end.

(** The run properties element [a:rPr]: the character formatting of a
    run, and the [a:hlinkClick] children appended to it (each one names a
    relationship of the part). *)
Module Font.
Record t := mk {
  name : option string;
  size : option Z;
  bold : option bool;
  italic : option bool;
  underline : option bool;
  fill : Fill;
  hlinkClick : list nat
}.

Definition unset : t :=
  {| name := None; size := None; bold := None; italic := None;
     underline := None; fill := FillInherited; hlinkClick := [] |}.

Definition set_name (v : option string) (f : t) : t :=
  {| name := v; size := size f; bold := bold f; italic := italic f;
     underline := underline f; fill := fill f; hlinkClick := hlinkClick f |}.
Definition set_size (v : option Z) (f : t) : t :=
  {| name := name f; size := v; bold := bold f; italic := italic f;
     underline := underline f; fill := fill f; hlinkClick := hlinkClick f |}.
Definition set_bold (v : option bool) (f : t) : t :=
  {| name := name f; size := size f; bold := v; italic := italic f;
     underline := underline f; fill := fill f; hlinkClick := hlinkClick f |}.
Definition set_italic (v : option bool) (f : t) : t :=
  {| name := name f; size := size f; bold := bold f; italic := v;
     underline := underline f; fill := fill f; hlinkClick := hlinkClick f |}.
Definition set_underline (v : option bool) (f : t) : t :=
  {| name := name f; size := size f; bold := bold f; italic := italic f;
     underline := v; fill := fill f; hlinkClick := hlinkClick f |}.
Definition set_fill (v : Fill) (f : t) : t :=
  {| name := name f; size := size f; bold := bold f; italic := italic f;
     underline := underline f; fill := v; hlinkClick := hlinkClick f |}.
(** The run properties after [font.color] was read. *)
Definition read_color (f : t) : t := set_fill (solid (fill f)) f.
(** [font.color.rgb = v] *)
Definition set_color_rgb (v : RGBColor) (f : t) : t :=
  set_fill (SolidFill (Some (RGB v))) f.
Definition append (rId : nat) (f : t) : t :=
  {| name := name f; size := size f; bold := bold f; italic := italic f;
     underline := underline f; fill := fill f;
     hlinkClick := hlinkClick f ++ [rId] |}.
End Font.

(** A run [a:r]: the part it is in (the slide), its text and its optional
    [a:rPr] child. *)
Record Run := mkRun { part : nat; text : string; rPr : option Font.t }.

(** [run.font] as a view: a run without [a:rPr] has every attribute unset. *)
Definition font (run : Run) : Font.t := default Font.unset (rPr run).

(** [run.font.x = v], and [run.font.x] when reading changes the run *)
Definition font_set (upd : Font.t -> Font.t) (run : Run) : Run :=
  {| part := part run; text := text run; rPr := Some (upd (font run)) |}.

(** [run.font] as an access: the library gets the [a:rPr] child of the run
    and adds an empty one when the run has none. *)
Definition font_access (run : Run) : Run := font_set id run.

Record Paragraph := mkParagraph { runs : list Run }.
Record TextFrame := mkTextFrame { paragraphs : list Paragraph }.
Record Cell := mkCell { cell_text_frame : TextFrame }.
Record Row := mkRow { cells : list Cell }.
Record Table := mkTable { rows : list Row }.

(** An attribute as [hasattr] and a read find it: not there, there, or a
    property whose getter raises [ValueError]. *)
Inductive Attr (A : Type) :=
| Absent
| Present (a : A)
| Failing.
Arguments Absent {A}.
Arguments Present {A} a.
Arguments Failing {A}.

(** A shape, as the three probes of the walk see it. *)
#[warnings="-register-all"]
Inductive Shape := mkShape {
  text_frame : Attr TextFrame;
  table : Attr Table;
  shapes : Attr (list Shape)
}.

Record Slide := mkSlide { slide_shapes : list Shape }.
Record Presentation := mkPresentation { slides : list Slide }.

(** A relationship of a part. *)
Record Relationship := mkRelationship {
  is_external : bool;
  reltype : string;
  target_ref : string
}.

(** ** The environment

    What the code cannot decide by itself: which template files load,
    which library calls of the hyperlink injector fail, and the
    relationships of the parts. *)

(** The library calls of [add_hyperlink_to_run], one per statement. *)
Inductive Site :=
| at_part | at_relate_to | at_r | at_OxmlElement_hlinkClick | at_set
| at_find | at_OxmlElement_rPr | at_insert | at_append
| at_color | at_underline
| at_fallback_color | at_fallback_underline.

Record Env := mkEnv {
  (** [Presentation(path)]: the package at [path], if it loads *)
  packages : string -> option Presentation;
  (** [raises n s]: the call at site [s] raises during the [n]-th run of
      the injector *)
  raises : nat -> Site -> bool;
  (** how many times the injector has run *)
  injections : nat;
  (** the relationships of every part of the package being filled, in the
      order of its collection; a relationship is named by its position,
      from 1, which stands for its identifier: relationships are added and
      never removed *)
  rels : gmap nat (list Relationship)
}.

(** The exceptions: the error of [Presentation(path)] on a package that
    does not load, whatever a library call of the injector raises, and
    [ValueError]. *)
Inductive Exception :=
| PackageNotFoundError (path : string)
| LibraryError (s : Site)
| ValueError.

(** ** State and exceptions *)

Inductive Res (S A : Type) :=
| Ret (a : A) (s : S)
| Exc (e : Exception) (s : S).
Arguments Ret {S A} a s.
Arguments Exc {S A} e s.

Definition M (S A : Type) : Type := S -> Res S A.

Definition ret {S A} (a : A) : M S A := fun s => Ret a s.

Definition raise {S A} (x : Exception) : M S A := fun s => Exc x s.

Definition bind {S A B} (m : M S A) (f : A -> M S B) : M S B := fun s =>
  match m s with
  | Ret a s' => f a s'
  | Exc e s' => Exc e s'
  end.

Declare Scope py_scope.
Delimit Scope py_scope with py.
Notation "x ← y ; z" := (bind y (fun x => z))
  (at level 20, y at level 100, z at level 200, only parsing) : py_scope.
Notation "x ;; z" := (bind x (fun _ => z))
  (at level 100, z at level 200, only parsing, right associativity) : py_scope.
Open Scope py_scope.

(** [try: body  except Exception: handler] *)
Definition try_except {S A} (body handler : M S A) : M S A := fun s =>
  match body s with
  | Ret a s' => Ret a s'
  | Exc _ s' => handler s'
  end.

(** [for x in xs: acc = f(acc, x)] *)
Definition foldM {S A B} (f : A -> B -> M S A) : A -> list B -> M S A :=
  fix go (a : A) (xs : list B) : M S A :=
    match xs with
    | [] => ret a
    | x :: xs' => a' ← f a x; go a' xs'
    end.

(** [for x in xs: f(x)] where [f] mutates [x] in place *)
Definition forM {S A} (f : A -> M S A) : list A -> M S (list A) :=
  fix go (xs : list A) : M S (list A) :=
    match xs with
    | [] => ret []
    | x :: xs' => y ← f x; ys ← go xs'; ret (y :: ys)
    end.

(** ** [add_hyperlink_to_run]

    The state is the run being changed together with the environment: what
    was done to the run before an exception is still done after it. *)

Definition RunSt : Type := Run * Env.

(** A library call at site [s], in the [n]-th run of the injector. *)
Definition lib (n : nat) (s : Site) : M RunSt unit := fun st =>
  if raises st.2 n s then Exc (LibraryError s) st else Ret tt st.

Definition RT_HYPERLINK : string :=
  "http://schemas.openxmlformats.org/officeDocument/2006/relationships/hyperlink".

(** The relationships of a part. *)
Definition part_rels (e : Env) (p : nat) : list Relationship :=
  default [] (rels e !! p).

(** An external relationship of that type to that target. *)
Definition matches (type target : string) (rel : Relationship) : bool :=
  is_external rel && String.eqb (reltype rel) type &&
  String.eqb (target_ref rel) target.

(** The position of the first relationship that matches, from 0. *)
Fixpoint first_match (type target : string) (rs : list Relationship) :
    option nat :=
  match rs with
  | [] => None
  | rel :: rs' =>
      if matches type target rel then Some O
      else option_map S (first_match type target rs')
  end.

(** [part.relate_to(url, RT_HYPERLINK, is_external=True)]: the
    relationship to [url] that the part of the run has, or a new one. *)
Definition relate_to (n : nat) (url : string) : M RunSt nat :=
  lib n at_relate_to ;;
  (fun st : RunSt =>
     let e := st.2 in
     let rs := part_rels e (part st.1) in
     match first_match RT_HYPERLINK url rs with
     | Some k => Ret (S k) st
     | None =>
         Ret (S (length rs))
             (st.1,
              {| packages := packages e; raises := raises e;
                 injections := injections e;
                 rels := <[part st.1 :=
                             (rs ++ [mkRelationship true RT_HYPERLINK url])%list]>
                           (rels e) |})
     end).

(** [r_element.find('.//a:rPr', ...)]: the [a:rPr] of the run, or [None]. *)
Definition find_rPr (n : nat) : M RunSt (option Font.t) :=
  lib n at_find ;;
  (fun st : RunSt => Ret (rPr st.1) st).

(** A library call that changes the run. *)
Definition on_run (n : nat) (s : Site) (upd : Run -> Run) : M RunSt unit :=
  lib n s ;;
  (fun st : RunSt => Ret tt (upd st.1, st.2)).

Definition blue_link : RGBColor := mkRGB 0 0 255.

(** The body of the [try]. *)
Definition hyperlink_body (n : nat) (url : string) : M RunSt bool :=
  lib n at_part ;;
  rId ← relate_to n url;
  lib n at_r ;;
  lib n at_OxmlElement_hlinkClick ;;
  lib n at_set ;;
  rPr ← find_rPr n;
  match rPr with
  | None => lib n at_OxmlElement_rPr ;; on_run n at_insert font_access
  | Some _ => ret tt
  end ;;
  on_run n at_append (font_set (Font.append rId)) ;;
  on_run n at_color (font_set (Font.set_color_rgb blue_link)) ;;
  on_run n at_underline (font_set (Font.set_underline (Some true))) ;;
  ret true.

(** The [except Exception] handler: style the run, whatever happens. *)
Definition hyperlink_fallback (n : nat) : M RunSt bool :=
  try_except
    (on_run n at_fallback_color (font_set (Font.set_color_rgb blue_link)) ;;
     on_run n at_fallback_underline (font_set (Font.set_underline (Some true))))
    (ret tt) ;;
  ret false.

Definition count_injection (e : Env) : Env :=
  {| packages := packages e; raises := raises e;
     injections := S (injections e); rels := rels e |}.

Definition add_hyperlink_to_run (url : string) : M RunSt bool := fun st =>
  let n := injections st.2 in
  try_except (hyperlink_body n url) (hyperlink_fallback n)
             (st.1, count_injection st.2).

(** ** [find_and_replace_in_text_frame] *)

(** Run a computation on one run from a computation on the environment:
    [run] is the run it works on. *)
Definition with_run {A} (run : Run) (m : M RunSt A) : M Env (A * Run) := fun e =>
  match m (run, e) with
  | Ret a st => Ret (a, st.1) st.2
  | Exc x st => Exc x st.2
  end.

(** [run.text = s] leaves [a:rPr] alone. *)
Definition set_text (s : string) (run : Run) : M Env Run :=
  match Xml.written s with
  | Some t => ret {| part := part run; text := t; rPr := rPr run |}
  | None => raise ValueError
  end.

(** Truthiness of the values the code tests with [if x:]. *)
Definition truthy_name (v : option string) : bool :=
  match v with Some s => Str.truthy s | None => false end.
Definition truthy_size (v : option Z) : bool :=
  match v with Some n => negb (n =? 0)%Z | None => false end.

(** The body of the loop over [replacements.items()], for one item. *)
Definition replace_item (original_text : string)
    (clickable_links : gmap string string)
    (run : Run) (item : string * string) : M Env Run :=
  let placeholder := item.1 in
  let replacement := item.2 in
  if Str.contains placeholder original_text then
    (* Store original formatting *)
    let run := font_access run in
    let font_name := Font.name (font run) in
    let font_size := Font.size (font run) in
    let font_bold := Font.bold (font run) in
    let font_italic := Font.italic (font run) in
    let run := font_set Font.read_color run in
    let font_color :=
      if decide (color_type (Font.fill (font run)) = Some 1%Z)
      then color_rgb (Font.fill (font run)) else None in
    (* Replace the text *)
    run ← set_text (Str.replace placeholder replacement original_text) run;
    (* Reapply original formatting *)
    let run := if truthy_name font_name
               then font_set (Font.set_name font_name) run else run in
    let run := if truthy_size font_size
               then font_set (Font.set_size font_size) run else run in
    let run := if bool_decide (font_bold ≠ None)
               then font_set (Font.set_bold font_bold) run else run in
    let run := if bool_decide (font_italic ≠ None)
               then font_set (Font.set_italic font_italic) run else run in
    let run := match font_color with
               | Some rgb => font_set (Font.set_color_rgb rgb) run
               | None => run
               end in
    (* Make it clickable if it's a link *)
    match clickable_links !! placeholder with
    | Some url => r ← with_run run (add_hyperlink_to_run url); ret r.2
    | None => ret run
    end
  else ret run.

(** The body of the loop over [paragraph.runs], for one run. *)
Definition replace_in_run (replacements : list (string * string))
    (clickable_links : gmap string string) (run : Run) : M Env Run :=
  let original_text := text run in
  foldM (replace_item original_text clickable_links) run replacements.

Definition find_and_replace_in_text_frame (text_frame : TextFrame)
    (replacements : list (string * string))
    (clickable_links : option (gmap string string)) : M Env TextFrame :=
  let clickable_links := default ∅ clickable_links in
  ps ← forM (fun paragraph =>
               rs ← forM (replace_in_run replacements clickable_links)
                         (runs paragraph);
               ret (mkParagraph rs))
            (paragraphs text_frame);
  ret (mkTextFrame ps).

(** ** [find_and_replace_in_shape] *)

Fixpoint find_and_replace_in_shape (shape : Shape)
    (replacements : list (string * string))
    (clickable_links : option (gmap string string)) : M Env Shape :=
  match text_frame shape with
  | Failing => raise ValueError
  | Present tf =>
      tf' ← find_and_replace_in_text_frame tf replacements clickable_links;
      ret (mkShape (Present tf') (table shape) (shapes shape))
  | Absent =>
      match table shape with
      | Failing => raise ValueError
      | Present tbl =>
          rs ← forM (fun row =>
                       cs ← forM (fun cell =>
                                    tf' ← find_and_replace_in_text_frame
                                            (cell_text_frame cell)
                                            replacements clickable_links;
                                    ret (mkCell tf'))
                                 (cells row);
                       ret (mkRow cs))
                    (rows tbl);
          ret (mkShape Absent (Present (mkTable rs)) (shapes shape))
      | Absent =>
          match shapes shape with
          | Failing => raise ValueError
          | Present subs =>
              subs' ← forM (fun sub_shape =>
                              find_and_replace_in_shape sub_shape
                                replacements clickable_links)
                           subs;
              ret (mkShape Absent Absent (Present subs'))
          | Absent => ret shape
          end
      end
  end.

(** ** [replace_placeholders_in_ppt] *)

(** [Presentation(input_file)] *)
Definition open_presentation (input_file : string) : M Env Presentation := fun e =>
  match packages e input_file with
  | Some prs => Ret prs e
  | None => Exc (PackageNotFoundError input_file) e
  end.

Definition replace_placeholders_in_ppt (input_file : string)
    (replacements : list (string * string))
    (clickable_links : option (gmap string string)) : M Env Presentation :=
  prs ← open_presentation input_file;
  ss ← forM (fun slide =>
               shs ← forM (fun shape =>
                             find_and_replace_in_shape shape
                               replacements clickable_links)
                          (slide_shapes slide);
               ret (mkSlide shs))
            (slides prs);
  ret (mkPresentation ss).

(** ** The runs of a document, in document order *)

Definition frame_runs (tf : TextFrame) : list Run :=
  flat_map runs (paragraphs tf).

Definition cell_runs (cell : Cell) : list Run :=
  frame_runs (cell_text_frame cell).

Definition table_runs (tbl : Table) : list Run :=
  flat_map (fun row => flat_map cell_runs (cells row)) (rows tbl).

(** The runs that the walk finds in a shape: those of its text frame if
    it has one, else those of the cells of its table, else those of its
    child shapes. *)
Fixpoint shape_runs (shape : Shape) : list Run :=
  match text_frame shape with
  | Present tf => frame_runs tf
  | Failing => []
  | Absent =>
      match table shape with
      | Present tbl => table_runs tbl
      | Failing => []
      | Absent =>
          match shapes shape with
          | Present subs => flat_map shape_runs subs
          | _ => []
          end
      end
  end.

Definition presentation_runs (prs : Presentation) : list Run :=
  flat_map (fun slide => flat_map shape_runs (slide_shapes slide)) (slides prs).




(** Every probe that the walk makes on the shape, and on the shapes below
    it, answers. *)
Fixpoint answers (shape : Shape) : bool :=
  match text_frame shape with
  | Failing => false
  | Present _ => true
  | Absent =>
      match table shape with
      | Failing => false
      | Present _ => true
      | Absent =>
          match shapes shape with
          | Failing => false
          | Present subs => forallb answers subs
          | Absent => true
          end
      end
  end.

(** ** What the properties are stated with *)

(** [a] matches at no position of [u], whatever follows [u]. *)
Definition clear_of (a u : string) : Prop :=
  forall u1 u2 q, u = u1 ++ u2 -> u2 <> "" -> String.prefix a (u2 ++ q) = false.

(** The library calls the [try] block makes, in order, on a run. *)
Definition try_sites (run : Run) : list Site :=
  ([at_part; at_relate_to; at_r; at_OxmlElement_hlinkClick; at_set; at_find] ++
   match rPr run with
   | None => [at_OxmlElement_rPr; at_insert]
   | Some _ => []
   end ++
   [at_append; at_color; at_underline])%list.

(** No call of the [try] block raises in the [n]-th run of the injector. *)
Definition try_succeeds (e : Env) (n : nat) (run : Run) : bool :=
  forallb (fun s => negb (raises e n s)) (try_sites run).

(** The character formatting that no step of the fill changes. *)
Definition same_character (r r' : Run) : Prop :=
  Font.name (font r') = Font.name (font r) /\
  Font.size (font r') = Font.size (font r) /\
  Font.bold (font r') = Font.bold (font r) /\
  Font.italic (font r') = Font.italic (font r).

(** The text that [run.text = s] leaves in the run, once it is known to
    return. *)
Definition stored (s : string) : string := Xml.escape s.

(** The text a run ends with: every item whose key is in the text the run
    had at first writes its own replacement of that first text. *)
Definition text_after (replacements : list (string * string))
    (original_text current : string) : string :=
  fold_left
    (fun cur item =>
       if Str.contains item.1 original_text
       then stored (Str.replace item.1 item.2 original_text) else cur)
    replacements current.

(** Some key of the mapping is in the text. *)
Definition found (replacements : list (string * string)) (t : string) : bool :=
  existsb (fun item : string * string => Str.contains item.1 t) replacements.

(** Every text that the replacer gives to the run is one that the library
    takes. *)
Definition writable (replacements : list (string * string)) (run : Run) : bool :=
  forallb
    (fun item : string * string =>
       negb (Str.contains item.1 (text run)) ||
       Xml.compatible (Xml.escape (Str.replace item.1 item.2 (text run))))
    replacements.

(** Every probe that the fill makes on the document answers. *)
Definition answering (prs : Presentation) : bool :=
  forallb (fun slide => forallb answers (slide_shapes slide)) (slides prs).

(** The fill has nothing to stumble on in the document: every probe
    answers, and every run is writable. *)
Definition fillable (replacements : list (string * string))
    (prs : Presentation) : bool :=
  answering prs && forallb (writable replacements) (presentation_runs prs).

(** The relationship that an identifier names in the part of a run, and
    its target. *)
Definition named (e : Env) (p : nat) (rId : nat) : option Relationship :=
  match rId with
  | O => None
  | S k => part_rels e p !! k
  end.

Definition target (e : Env) (p : nat) (rId : nat) : option string :=
  option_map target_ref (named e p rId).

(** What [relate_to] returns for the part [p] and the URL, and the
    relationships it leaves. *)
Definition rId_for (e : Env) (p : nat) (url : string) : nat :=
  match first_match RT_HYPERLINK url (part_rels e p) with
  | Some k => S k
  | None => S (length (part_rels e p))
  end.

Definition rels_with (e : Env) (p : nat) (url : string) :
    gmap nat (list Relationship) :=
  match first_match RT_HYPERLINK url (part_rels e p) with
  | Some _ => rels e
  | None =>
      <[p := (part_rels e p ++ [mkRelationship true RT_HYPERLINK url])%list]>
        (rels e)
  end.

(** A run after a replacement, before it is made a link: the text that
    was stored, and the formatting it had, with the fill that reading the
    colour leaves. *)
Definition replaced (t : string) (run : Run) : Run :=
  mkRun (part run) t (Some (Font.read_color (font run))).

(** The relationships only grow. *)
Definition rels_grow (e e' : Env) : Prop :=
  forall p, part_rels e p `prefix_of` part_rels e' p.

(** ** Sample documents *)

Module Sample.

(** The relationship of a slide to its layout, and the relationships of
  two slides as they are loaded. *)
Definition layout : Relationship :=
mkRelationship false
  "http://schemas.openxmlformats.org/officeDocument/2006/relationships/slideLayout"
  "../slideLayouts/slideLayout1.xml".

Definition slide_rels : gmap nat (list Relationship) :=
{[1 := [layout]; 2 := [layout]]}.

(** No package on disk, no failing library call, two slides loaded. *)
Definition quiet : Env :=
{| packages := fun _ => None; raises := fun _ _ => false;
   injections := 0; rels := slide_rels |}.

(** A text frame of one paragraph of one run. *)
Definition frame (run : Run) : TextFrame := mkTextFrame [mkParagraph [run]].

(** A run of the first slide, and of another one. *)
Definition plain (s : string) : Run := mkRun 1 s None.
Definition plain_on (p : nat) (s : string) : Run := mkRun p s None.

(** What a replacement leaves of a run that had no [a:rPr]. *)
Definition touched : Font.t := Font.read_color Font.unset.

(** Bold, 18 pt (in EMU), red. *)
Definition red_bold : Font.t :=
{| Font.name := None; Font.size := Some 228600%Z; Font.bold := Some true;
   Font.italic := None; Font.underline := None;
   Font.fill := SolidFill (Some (RGB (mkRGB 255 0 0)));
   Font.hlinkClick := [] |}.

Definition payment_run : Run := mkRun 1 "Pay: {{payment_link}}" (Some red_bold).

Definition payment_items : list (string * string) :=
[("{{payment_link}}", "https://pay.example/1")].

Definition payment_links : gmap string string :=
{["{{payment_link}}" := "https://pay.example/1"]}.



Definition group (subs : list Shape) : Shape := mkShape Absent Absent (Present subs).
Definition picture : Shape := mkShape Absent Absent Absent.
Definition text_shape (run : Run) : Shape :=
mkShape (Present (frame run)) Absent Absent.
Definition table_shape (cells : list (list Run)) : Shape :=
mkShape Absent
  (Present (mkTable (map (fun row => mkRow (map (fun r => mkCell (frame r)) row))
                         cells)))
  Absent.

(** A graphic frame that holds a chart: it has no text frame, and its
  [table] raises. *)
Definition chart : Shape := mkShape Absent Failing Absent.

(** A group holding a picture and a sub-group; the sub-group holds a text
  shape and a table of two rows. *)
Definition nested : Shape :=
group [picture;
       group [text_shape (plain "Dear {{client_name}},");
              table_shape [[plain "Total"; plain "{{final_price}}"];
                           [plain "Due"; plain "on receipt"]]]].

Definition deck : Presentation :=
mkPresentation [mkSlide [text_shape (plain "Proposal for {{client_name}}");
                         nested];
                mkSlide [text_shape (plain_on 2 "{{unused_token}}")]].

(** The same with a chart on a third slide. *)
Definition chart_deck : Presentation :=
mkPresentation (slides deck ++ [mkSlide [chart]]).

(** Two templates on disk. *)
Definition disk : Env :=
{| packages := fun path =>
     if String.eqb path "input.pptx" then Some deck
     else if String.eqb path "chart.pptx" then Some chart_deck
     else None;
   raises := fun _ _ => false; injections := 0; rels := slide_rels |}.

Definition items : list (string * string) :=
[("{{client_name}}", "Ada"); ("{{final_price}}", "$500")].

(** A carriage return, and the encoding of U+FFFF. *)
Definition CR : string := String "013"%char EmptyString.
Definition U_FFFF : string :=
String "239"%char (String "191"%char (String "191"%char EmptyString)).

End Sample.

(** ** What the further properties are stated with *)

(** The library calls of the [try] block up to [rPr.append(hlinkClick)]. *)
Definition link_sites (run : Run) : list Site :=
  ([at_part; at_relate_to; at_r; at_OxmlElement_hlinkClick; at_set; at_find] ++
   match rPr run with
   | None => [at_OxmlElement_rPr; at_insert]
   | Some _ => []
   end ++
   [at_append])%list.

(** [relate_to] is reached and returns. *)
Definition relates (e : Env) (n : nat) : bool :=
  negb (raises e n at_part) && negb (raises e n at_relate_to).

(** The [a:hlinkClick] gets appended: no call up to the append raises. *)
Definition attaches (e : Env) (n : nat) (run : Run) : bool :=
  forallb (fun s => negb (raises e n s)) (link_sites run).

(** Every hyperlink of the run names a relationship of its part. *)
Definition linked (e : Env) (run : Run) : Prop :=
  Forall (fun rId => is_Some (named e (part run) rId))
         (Font.hlinkClick (font run)).







Module Case.

(** The templates of [Sample.disk], with every [relate_to] failing. *)
Definition offline : Env :=
  {| packages := packages Sample.disk;
     raises := fun _ s => match s with at_relate_to => true | _ => false end;
     injections := 0; rels := Sample.slide_rels |}.

(** A placeholder cut in two by a run boundary. *)
Definition split_frame : TextFrame :=
  mkTextFrame [mkParagraph [Sample.plain "Dear {{client_"; Sample.plain "name}},"]].

(** Links for a key of [Sample.items] and for a key that is not one. *)
Definition links : gmap string string :=
  {["{{final_price}}" := "https://pay.example/1"]}.
Definition more_links : gmap string string :=
  <["{{calendly_link}}" := "https://cal.example/2"]> links.

End Case.
From Stdlib Require Import SpecFloat.

(** ** Values parsed from JSON

    What [json.loads] and [request.get_json()] hand to the program.  An
    object is given by its members in order, with distinct names. *)

#[warnings="-register-all"]
Inductive JSON :=
| JNull
| JBool (b : bool)
| JInt (n : Z)
| JFloat (f : spec_float)
| JString (s : string)
| JArray (items : list JSON)
| JObject (members : list (string * JSON)).

Module Py.

Inductive Error :=
| KeyError (key : string)
| TypeError
| AttributeError
| ValueError.

Inductive outcome (A : Type) :=
| Returns (a : A)
| Raises (x : Error).
Arguments Returns {A} a.
Arguments Raises {A} x.

(** [bool(v)] *)
Definition truth (v : JSON) : bool :=
  match v with
  | JNull => false
  | JBool b => b
  | JInt n => negb (n =? 0)%Z
  | JFloat (S754_zero _) => false
  | JFloat _ => true
  | JString s => Str.truthy s
  | JArray [] => false
  | JArray (_ :: _) => true
  | JObject [] => false
  | JObject (_ :: _) => true
  end.

(** [d[key]] for a dictionary given by its items: the first item of that
    key. *)
Fixpoint item {V} (key : string) (d : list (string * V)) : option V :=
  match d with
  | [] => None
  | (k, v) :: rest => if String.eqb k key then Some v else item key rest
  end.

(** [d[key] = v]: in place when the key is there, at the end when not. *)
Fixpoint setitem {V} (key : string) (v : V) (d : list (string * V)) :
    list (string * V) :=
  match d with
  | [] => [(key, v)]
  | (k, w) :: rest =>
      if String.eqb k key then (k, v) :: rest
      else (k, w) :: setitem key v rest
  end.

(** [d.update(other)] *)
Definition update {V} (d other : list (string * V)) : list (string * V) :=
  fold_left (fun acc kv => setitem kv.1 kv.2 acc) other d.

(** [v[key]] with a string key: only an object has such items. *)
Definition getitem (v : JSON) (key : string) : outcome JSON :=
  match v with
  | JObject members =>
      match item key members with
      | Some w => Returns w
      | None => Raises (KeyError key)
      end
  | _ => Raises TypeError
  end.

(** [v.get(key, default)]: only an object has the method. *)
Definition get (v : JSON) (key : string) (default : JSON) : outcome JSON :=
  match v with
  | JObject members =>
      Returns (match item key members with Some w => w | None => default end)
  | _ => Raises AttributeError
  end.

(** The newline character. *)
Definition newline : string := String "010"%char EmptyString.

(** ["\n".join(val)]: every element has to be a string. *)
Fixpoint join_lines (val : list JSON) : outcome string :=
  match val with
  | [] => Returns EmptyString
  | JString s :: rest =>
      match rest with
      | [] => Returns s
      | _ :: _ =>
          match join_lines rest with
          | Returns t => Returns (s ++ newline ++ t)
          | Raises x => Raises x
          end
      end
  | _ :: _ => Raises TypeError
  end.

(** [s.title()] on ASCII text: a letter after a letter is lowered, a
    letter after anything else is raised. *)
Definition is_upper (c : ascii) : bool :=
  (65 <=? nat_of_ascii c)%nat && (nat_of_ascii c <=? 90)%nat.
Definition is_lower (c : ascii) : bool :=
  (97 <=? nat_of_ascii c)%nat && (nat_of_ascii c <=? 122)%nat.
Definition upper (c : ascii) : ascii :=
  if is_lower c then ascii_of_nat (nat_of_ascii c - 32) else c.
Definition lower (c : ascii) : ascii :=
  if is_upper c then ascii_of_nat (nat_of_ascii c + 32) else c.

Fixpoint title_from (after_letter : bool) (s : string) : string :=
  match s with
  | EmptyString => EmptyString
  | String c s' =>
      String (if after_letter then lower c else upper c)
             (title_from (is_upper c || is_lower c) s')
  end.

Definition title (s : string) : string := title_from false s.

End Py.

(** ** [generate_proposal]: the mapping and its conversion to strings

    Step 6 of [generate_proposal] and the loop after it.  What the steps
    before have produced is given: the three objects read from the model,
    the two links and the date. *)

Record Inputs := mkInputs {
  client_info : JSON;
  content : JSON;
  pricing : JSON;
  stripe_link : string;
  calendly_link : string;
  today_date : string
}.

(** A dictionary display [{k1: e1, ...}]: the values are computed from
    left to right and the first exception comes out; then the items are
    entered in order. *)
Fixpoint values (items : list (string * Py.outcome JSON)) :
    Py.outcome (list (string * JSON)) :=
  match items with
  | [] => Py.Returns []
  | (k, Py.Raises x) :: _ => Py.Raises x
  | (k, Py.Returns v) :: rest =>
      match values rest with
      | Py.Returns d => Py.Returns ((k, v) :: d)
      | Py.Raises x => Py.Raises x
      end
  end.

Definition display (items : list (string * Py.outcome JSON)) :
    Py.outcome (list (string * JSON)) :=
  match values items with
  | Py.Returns d => Py.Returns (Py.update [] d)
  | Py.Raises x => Py.Raises x
  end.

(** The display that [replacements] starts from. *)
Definition base_items (i : Inputs) : list (string * Py.outcome JSON) :=
  [
   ("{{client_name}}", Py.getitem (client_info i) "client_name");
   ("{{client_company}}", Py.getitem (client_info i) "client_company");
   ("{{base_price}}", Py.getitem (pricing i) "base_price_display");
   ("{{discount}}", Py.getitem (pricing i) "discount_value_display");
   ("{{final_price}}", Py.getitem (pricing i) "discounted_price_display");
   ("{{stripe_link}}", Py.Returns (JString (stripe_link i)));
   ("{{calendly_link}}", Py.Returns (JString (calendly_link i)));
   ("{{today_date}}", Py.Returns (JString (today_date i)))
  ].

(** The display of the marketing branch. *)
Definition marketing_items (i : Inputs) : list (string * Py.outcome JSON) :=
  [
   ("{{service_selected}}", Py.getitem (client_info i) "service_selected");
   ("{{client_industry}}", Py.getitem (client_info i) "client_industry");
   ("{{brand_positioning_summary}}", Py.getitem (content i) "brand_positioning");
   ("{{marketing_systems_summary}}", Py.getitem (content i) "marketing_systems");
   ("{{growth_potential_summary}}", Py.getitem (content i) "growth_potential");
   ("{{phase1_summary}}", Py.getitem (content i) "phase1");
   ("{{phase2_summary}}", Py.getitem (content i) "phase2");
   ("{{phase3_summary}}", Py.getitem (content i) "phase3");
   ("{{growth_rate}}", Py.getitem (content i) "growth_rate");
   ("{{roi_value}}", Py.getitem (content i) "roi_value");
   ("{{efficiency_rate}}", Py.getitem (content i) "efficiency_rate");
   ("{{base_price}}", Py.getitem (pricing i) "base_price_display");
   ("{{discount_value}}", Py.getitem (pricing i) "discount_value_display");
   ("{{discounted_price}}", Py.getitem (pricing i) "discounted_price_display");
   ("{{stripe_payment_link}}", Py.Returns (JString (stripe_link i)))
  ].

(** The display of the software branch. *)
Definition software_items (i : Inputs) : list (string * Py.outcome JSON) :=
  [
   ("{{proposal_title}}", Py.getitem (content i) "proposal_title");
   ("{{business_problem}}", Py.getitem (content i) "business_problem");
   ("{{pain_points}}", Py.getitem (content i) "pain_points");
   ("{{solution_overview}}", Py.getitem (content i) "solution_overview");
   ("{{solution_value}}", Py.getitem (content i) "solution_value");
   ("{{architecture_description}}", Py.getitem (content i) "architecture_description");
   ("{{module_list}}", Py.getitem (content i) "module_list");
   ("{{tech_stack}}", Py.getitem (content i) "tech_stack");
   ("{{phase1}}", Py.getitem (content i) "phase1");
   ("{{phase2}}", Py.getitem (content i) "phase2");
   ("{{phase3}}", Py.getitem (content i) "phase3");
   ("{{phase4}}", Py.getitem (content i) "phase4");
   ("{{deliverables}}", Py.getitem (content i) "deliverables");
   ("{{timeline}}", Py.getitem (content i) "timeline");
   ("{{terms}}", Py.getitem (content i) "terms");
   ("{{next_steps}}", Py.getitem (content i) "next_steps")
  ].

(** Step 6: [replacements] and [clickable_links]. *)
Definition build_mapping (project_type : string) (i : Inputs) :
    Py.outcome (list (string * JSON) * gmap string string) :=
  match display (base_items i) with
  | Py.Raises x => Py.Raises x
  | Py.Returns replacements =>
      let clickable_links : gmap string string :=
        <["{{calendly_link}}" := calendly_link i]>
          (<["{{stripe_link}}" := stripe_link i]> ∅) in
      if String.eqb project_type "marketing" then
        match display (marketing_items i) with
        | Py.Raises x => Py.Raises x
        | Py.Returns more =>
            Py.Returns
              (Py.update replacements more,
               <["{{stripe_payment_link}}" := stripe_link i]> clickable_links)
        end
      else
        match display (software_items i) with
        | Py.Raises x => Py.Raises x
        | Py.Returns more =>
            Py.Returns (Py.update replacements more, clickable_links)
        end
  end.

(** The value the loop puts in place of [val]: the lines of a list, the
    string itself, [str(val)] for anything else ([str] is Python's). *)
Definition to_string (str : JSON -> string) (val : JSON) : Py.outcome string :=
  match val with
  | JArray items => Py.join_lines items
  | JString s => Py.Returns s
  | _ => Py.Returns (str val)
  end.

(** The loop "Convert all values to strings". *)
Fixpoint stringify (str : JSON -> string) (replacements : list (string * JSON)) :
    Py.outcome (list (string * string)) :=
  match replacements with
  | [] => Py.Returns []
  | (key, val) :: rest =>
      match to_string str val with
      | Py.Raises x => Py.Raises x
      | Py.Returns s =>
          match stringify str rest with
          | Py.Returns d => Py.Returns ((key, s) :: d)
          | Py.Raises x => Py.Raises x
          end
      end
  end.

(** The mapping and the links that [generate_proposal] hands to
    [replace_placeholders_in_ppt]. *)
Definition proposal_mapping (str : JSON -> string) (project_type : string)
    (i : Inputs) :
    Py.outcome (list (string * string) * gmap string string) :=
  match build_mapping project_type i with
  | Py.Raises x => Py.Raises x
  | Py.Returns (replacements, clickable_links) =>
      match stringify str replacements with
      | Py.Raises x => Py.Raises x
      | Py.Returns strings => Py.Returns (strings, clickable_links)
      end
  end.

(** ** The endpoints *)

(** [TEMPLATES], for the two files next to [app.py]. *)
Definition TEMPLATES (input input_2 : string) : list (string * string) :=
  [("marketing", input); ("software", input_2)].

(** The guard of [generate_proposal] and the choice of the template:
    [if project_type not in TEMPLATES: raise ValueError(...)], and later
    [TEMPLATES[project_type]]. *)
Definition template_for (templates : list (string * string))
    (project_type : string) : Py.outcome string :=
  match Py.item project_type templates with
  | Some path => Py.Returns path
  | None => Py.Raises Py.ValueError
  end.

(** [v in ['marketing', 'software']]: only a string equals a string. *)
Definition is_project_type (v : JSON) : bool :=
  match v with
  | JString s => String.eqb s "marketing" || String.eqb s "software"
  | _ => false
  end.

(** Where the checks at the head of an endpoint lead. *)
Inductive Checked :=
| Rejected (error : string)
| Failed (x : Py.Error)
| Accepted (email user_description project_type : JSON).

(** The three reads [data.get(...)] that both endpoints start with. *)
Definition read_request (data : JSON) : Py.outcome (JSON * JSON * JSON) :=
  match Py.get data "email" JNull with
  | Py.Raises x => Py.Raises x
  | Py.Returns email =>
      match Py.get data "user_description" JNull with
      | Py.Raises x => Py.Raises x
      | Py.Returns user_description =>
          match Py.get data "project_type" (JString "marketing") with
          | Py.Raises x => Py.Raises x
          | Py.Returns project_type =>
              Py.Returns (email, user_description, project_type)
          end
      end
  end.

(** The checks of [api_generate_proposal]. *)
Definition check_generate_proposal (data : JSON) : Checked :=
  if negb (Py.truth data) then Rejected "No JSON data provided"
  else
    match read_request data with
    | Py.Raises x => Failed x
    | Py.Returns (email, user_description, project_type) =>
        if negb (Py.truth email) then Rejected "Email is required"
        else if negb (Py.truth user_description)
        then Rejected "User description is required"
        else if negb (is_project_type project_type)
        then Rejected "Project type must be 'marketing' or 'software'"
        else Accepted email user_description project_type
    end.

(** The checks of [api_generate_proposal_info]. *)
Definition check_generate_proposal_info (data : JSON) : Checked :=
  if negb (Py.truth data) then Rejected "No JSON data provided"
  else
    match read_request data with
    | Py.Raises x => Failed x
    | Py.Returns (email, user_description, project_type) =>
        if negb (Py.truth email) || negb (Py.truth user_description)
        then Rejected "Email and user_description are required"
        else if negb (is_project_type project_type)
        then Rejected "Project type must be 'marketing' or 'software'"
        else Accepted email user_description project_type
    end.

(** The name of the download:
    [f"{project_type.title()}_Proposal_{metadata['client_name'].replace(' ', '_')}.pptx"];
    only a string has [replace]. *)
Definition download_name (project_type : string) (client_name : JSON) :
    Py.outcome string :=
  match client_name with
  | JString name =>
      Py.Returns (Py.title project_type ++ "_Proposal_" ++
                  Str.replace " " "_" name ++ ".pptx")
  | _ => Py.Raises Py.AttributeError
  end.

Module Request.

(** What the model answered for a marketing proposal. *)
Definition client : JSON :=
  JObject [("client_name", JString "Ada Lovelace");
           ("client_company", JString "Analytical Engines");
           ("client_industry", JString "Computing");
           ("service_selected", JString "AI Marketing")].

Definition marketing_content : JSON :=
  JObject [("brand_positioning", JString "Known to engineers only");
           ("marketing_systems", JString "No automation yet");
           ("growth_potential", JString "Twice the leads in a year");
           ("phase1", JArray [JString "Audit"; JString "Setup"]);
           ("phase2", JString "Launch");
           ("phase3", JString "Optimise");
           ("growth_rate", JInt 40);
           ("roi_value", JString "3.5");
           ("efficiency_rate", JInt 60)].

Definition prices : JSON :=
  JObject [("base_price_display", JString "$8,000");
           ("discount_value_display", JString "$1,200");
           ("discounted_price_display", JString "$6,800")].

Definition inputs : Inputs :=
  {| client_info := client; content := marketing_content; pricing := prices;
     stripe_link := "https://buy.stripe.com/test_1";
     calendly_link := "https://calendly.com/d/abc";
     today_date := "November 03, 2026" |}.

(** [str] on the values that are neither strings nor lists, as far as the
    samples need it. *)
Definition str (v : JSON) : string :=
  match v with
  | JNull => "None"
  | JBool true => "True"
  | JBool false => "False"
  | JInt 40 => "40"
  | JInt 60 => "60"
  | _ => ""
  end.

(** The mapping and the links made from [inputs]. *)
Definition strings : list (string * string) :=
  [("{{client_name}}", "Ada Lovelace");
   ("{{client_company}}", "Analytical Engines");
   ("{{base_price}}", "$8,000"); ("{{discount}}", "$1,200");
   ("{{final_price}}", "$6,800");
   ("{{stripe_link}}", "https://buy.stripe.com/test_1");
   ("{{calendly_link}}", "https://calendly.com/d/abc");
   ("{{today_date}}", "November 03, 2026");
   ("{{service_selected}}", "AI Marketing");
   ("{{client_industry}}", "Computing");
   ("{{brand_positioning_summary}}", "Known to engineers only");
   ("{{marketing_systems_summary}}", "No automation yet");
   ("{{growth_potential_summary}}", "Twice the leads in a year");
   ("{{phase1_summary}}", "Audit" ++ Py.newline ++ "Setup");
   ("{{phase2_summary}}", "Launch");
   ("{{phase3_summary}}", "Optimise"); ("{{growth_rate}}", "40");
   ("{{roi_value}}", "3.5"); ("{{efficiency_rate}}", "60");
   ("{{discount_value}}", "$1,200");
   ("{{discounted_price}}", "$6,800");
   ("{{stripe_payment_link}}", "https://buy.stripe.com/test_1")].

Definition links : gmap string string :=
  <["{{stripe_payment_link}}" := "https://buy.stripe.com/test_1"]>
    (<["{{calendly_link}}" := "https://calendly.com/d/abc"]>
       (<["{{stripe_link}}" := "https://buy.stripe.com/test_1"]> ∅)).

(** The bodies of three requests. *)
Definition plain_body : JSON :=
  JObject [("email", JString "ada@example.org");
           ("user_description", JString "A campaign for our new engine")].
Definition null_type_body : JSON :=
  JObject [("email", JString "ada@example.org");
           ("user_description", JString "A campaign for our new engine");
           ("project_type", JNull)].
Definition list_body : JSON := JArray [JString "ada@example.org"].

End Request.
(** * Properties *)

(** ** Strings *)

Example replace_price :
  Str.replace "{{final_price}}" "$500" "Price: {{final_price}} due" = "Price: $500 due".
Proof. reflexivity. Qed.

Example replace_empty_old : Str.replace "" "-" "abc" = "-a-b-c-".
Proof. reflexivity. Qed.

Example replace_overlap : Str.replace "aa" "b" "aaaaa" = "bba".
Proof. reflexivity. Qed.


Section StrFacts.

Lemma append_nil_r (s : string) : s ++ "" = s.
Proof. induction s as [|c s IH]; simpl; congruence. Qed.

Lemma append_assoc (s1 s2 s3 : string) : (s1 ++ s2) ++ s3 = s1 ++ s2 ++ s3.
Proof. induction s1 as [|c s1 IH]; simpl; congruence. Qed.

Lemma length_append (s1 s2 : string) :
  String.length (s1 ++ s2) = String.length s1 + String.length s2.
Proof. induction s1 as [|c s1 IH]; simpl; congruence. Qed.

Lemma prefix_nil (s : string) : String.prefix "" s = true.
Proof. by destruct s. Qed.

Lemma prefix_cons_eq (c d : ascii) (k s : string) :
  String.prefix (String c k) (String d s) =
  if ascii_dec c d then String.prefix k s else false.
Proof. reflexivity. Qed.

Lemma prefix_nil_r (k : string) : k <> "" -> String.prefix k "" = false.
Proof. destruct k; [contradiction | reflexivity]. Qed.

#[local] Arguments String.prefix : simpl never.
#[local] Arguments Ascii.eqb : simpl never.
#[local] Arguments String.eqb : simpl never.

Lemma prefix_cons (c d : ascii) (k s : string) :
  String.prefix (String c k) (String d s) = true <-> c = d /\ String.prefix k s = true.
Proof.
  rewrite prefix_cons_eq. destruct (ascii_dec c d); intuition congruence.
Qed.

Lemma prefix_append (k r : string) : String.prefix k (k ++ r) = true.
Proof.
  induction k as [|c k IH]; simpl; [apply prefix_nil|].
  rewrite prefix_cons. done.
Qed.

Lemma prefix_split (k s : string) :
  String.prefix k s = true -> exists r, s = k ++ r.
Proof.
  revert s. induction k as [|c k IH]; intros s H.
  - exists s. reflexivity.
  - destruct s as [|d s]; [discriminate|].
    apply prefix_cons in H as [-> H].
    destruct (IH _ H) as [r ->]. exists r. reflexivity.
Qed.

(** A match that fits in [s] does not depend on what follows [s]. *)
Lemma prefix_append_within (k s r : string) :
  String.length k <= String.length s ->
  String.prefix k (s ++ r) = String.prefix k s.
Proof.
  revert s. induction k as [|c k IH]; intros s Hlen.
  - by rewrite !prefix_nil.
  - destruct s as [|d s]; simpl in Hlen; [lia|].
    simpl. rewrite !prefix_cons_eq.
    destruct (ascii_dec c d); [apply IH; lia | reflexivity].
Qed.

Lemma prefix_length (k s : string) :
  String.prefix k s = true -> String.length k <= String.length s.
Proof.
  intros H. destruct (prefix_split _ _ H) as [r ->].
  rewrite length_append. lia.
Qed.

Lemma prefix_append_mono (k s r : string) :
  String.prefix k s = true -> String.prefix k (s ++ r) = true.
Proof.
  intros H. rewrite prefix_append_within; [assumption|].
  by apply prefix_length.
Qed.

Lemma drop_append (k r : string) : Str.drop (String.length k) (k ++ r) = r.
Proof. induction k as [|c k IH]; [by destruct r | exact IH]. Qed.

Lemma contains_cons (sub : string) (c : ascii) (s : string) :
  Str.contains sub (String c s) =
  String.prefix sub (String c s) || Str.contains sub s.
Proof. reflexivity. Qed.

Lemma contains_prefix (sub s : string) :
  String.prefix sub s = true -> Str.contains sub s = true.
Proof. intros H. destruct s; simpl; rewrite H; reflexivity. Qed.

Lemma contains_append_r (sub p s : string) :
  Str.contains sub s = true -> Str.contains sub (p ++ s) = true.
Proof.
  intros H. induction p as [|c p IH]; [assumption|].
  simpl. rewrite IH. apply orb_true_r.
Qed.

Lemma contains_nil (s : string) : Str.contains "" s = true.
Proof. destruct s; reflexivity. Qed.

Lemma find_cons (sub : string) (c : ascii) (s : string) :
  Str.find sub (String c s) =
  if String.prefix sub (String c s) then Some 0
  else option_map S (Str.find sub s).
Proof. reflexivity. Qed.

Lemma find_prefix (sub s : string) :
  String.prefix sub s = true -> Str.find sub s = Some 0.
Proof. intros H. destruct s; simpl; rewrite H; reflexivity. Qed.

Lemma find_cons_S (sub : string) (c : ascii) (s : string) (n : nat) :
  Str.find sub (String c s) = Some (S n) ->
  String.prefix sub (String c s) = false /\ Str.find sub s = Some n.
Proof.
  rewrite find_cons. destruct (String.prefix sub (String c s)); [discriminate|].
  destruct (Str.find sub s); simpl; intuition congruence.
Qed.

Lemma find_None_contains (sub s : string) :
  Str.find sub s = None <-> Str.contains sub s = false.
Proof.
  induction s as [|c s IH].
  - simpl. destruct (String.prefix sub ""); simpl; intuition congruence.
  - rewrite contains_cons, find_cons.
    destruct (String.prefix sub (String c s)); simpl; [intuition congruence|].
    destruct (Str.find sub s); simpl; [|tauto].
    split; [congruence | intros H]. apply IH in H. congruence.
Qed.

(** *** The scan *)

Lemma replace_scan_skip (old new : string) (n : nat) (s : string) :
  Str.replace_scan old new n s = Str.replace_scan old new 0 (Str.drop n s).
Proof.
  revert n. induction s as [|c s IH]; intros [|n]; try reflexivity.
  simpl. apply IH.
Qed.

Lemma replace_scan_hit (old new r : string) :
  old <> "" ->
  Str.replace_scan old new 0 (old ++ r) = new ++ Str.replace_scan old new 0 r.
Proof.
  intros Hne. destruct old as [|c old]; [contradiction|].
  change (String c old ++ r) with (String c (old ++ r)).
  cbn [Str.replace_scan].
  change (String c (old ++ r)) with (String c old ++ r).
  rewrite prefix_append. f_equal.
  rewrite replace_scan_skip. simpl String.length.
  replace (S (String.length old) - 1) with (String.length old) by lia.
  rewrite drop_append. reflexivity.
Qed.

Lemma replace_scan_miss (old new : string) (c : ascii) (s : string) :
  String.prefix old (String c s) = false ->
  Str.replace_scan old new 0 (String c s) =
  String c (Str.replace_scan old new 0 s).
Proof. intros H. cbn [Str.replace_scan]. rewrite H. reflexivity. Qed.

Lemma replace_scan_absent (old new s : string) :
  Str.contains old s = false -> Str.replace_scan old new 0 s = s.
Proof.
  induction s as [|c s IH]; [reflexivity|].
  rewrite contains_cons. intros [H1 H2]%orb_false_elim.
  rewrite replace_scan_miss by assumption. f_equal. by apply IH.
Qed.

Lemma replace_absent (old new s : string) :
  Str.contains old s = false -> Str.replace old new s = s.
Proof.
  destruct old as [|c old]; [by rewrite contains_nil|].
  apply replace_scan_absent.
Qed.

Lemma replace_nonempty (old new s : string) :
  old <> "" -> Str.replace old new s = Str.replace_scan old new 0 s.
Proof. by destruct old. Qed.

(** The first occurrence is replaced and the scan goes on behind it. *)
Lemma replace_scan_first (old new pre rest : string) :
  old <> "" ->
  Str.find old (pre ++ old ++ rest) = Some (String.length pre) ->
  Str.replace_scan old new 0 (pre ++ old ++ rest) =
  pre ++ new ++ Str.replace_scan old new 0 rest.
Proof.
  intros Hne. induction pre as [|c pre IH]; intros Hfind.
  - simpl. by apply replace_scan_hit.
  - cbn [String.append String.length] in *.
    apply find_cons_S in Hfind as [Hp Hfind].
    rewrite replace_scan_miss by assumption.
    f_equal. by apply IH.
Qed.

Lemma find_append_within (k p rest : string) :
  Str.find k (p ++ k) = Some (String.length p) ->
  Str.find k (p ++ k ++ rest) = Some (String.length p).
Proof.
  induction p as [|c p IH]; intros H.
  - simpl. apply find_prefix, prefix_append.
  - cbn [String.append String.length] in *.
    apply find_cons_S in H as [Hp H].
    rewrite find_cons, (IH H).
    assert (String.prefix k (String c (p ++ k ++ rest)) = false) as ->;
      [|reflexivity].
    rewrite <- Hp.
    change (String c (p ++ k ++ rest)) with (String c p ++ k ++ rest).
    rewrite <- append_assoc. apply prefix_append_within.
    simpl. rewrite length_append. lia.
Qed.

(** A piece in front of [k] that gives no earlier occurrence of [k] does
    not contain [k]. *)
Lemma find_end_absent (k p : string) :
  k <> "" ->
  Str.find k (p ++ k) = Some (String.length p) -> Str.contains k p = false.
Proof.
  intros Hne. induction p as [|c p IH]; intros H.
  - simpl. rewrite prefix_nil_r by assumption. reflexivity.
  - cbn [String.append String.length] in H.
    apply find_cons_S in H as [Hp H].
    rewrite contains_cons. apply orb_false_intro; [|by apply IH].
    destruct (String.prefix k (String c p)) eqn:Hq; [|reflexivity].
    apply (prefix_append_mono _ _ k) in Hq. simpl in Hq. congruence.
Qed.

Lemma replace_scan_join (k v : string) (parts : list string) :
  k <> "" ->
  Forall (fun p => Str.find k (p ++ k) = Some (String.length p)) parts ->
  Str.replace_scan k v 0 (Str.join k parts) = Str.join v parts.
Proof.
  intros Hne. induction parts as [|p rest IH]; intros Hall; [reflexivity|].
  apply Forall_cons in Hall as [Hp Hrest].
  destruct rest as [|q rest].
  - simpl. apply replace_scan_absent. by apply find_end_absent.
  - change (Str.join k (p :: q :: rest)) with (p ++ k ++ Str.join k (q :: rest)).
    change (Str.join v (p :: q :: rest)) with (p ++ v ++ Str.join v (q :: rest)).
    rewrite replace_scan_first; [|assumption|by apply find_append_within].
    by rewrite IH.
Qed.

(** *** Tokens do not overlap *)

Lemma clear_of_tail (a : string) (c : ascii) (u : string) :
  clear_of a (String c u) -> clear_of a u.
Proof. intros H u1 u2 q -> Hne. by apply (H (String c u1)). Qed.

Lemma clear_of_head (a : string) (c : ascii) (u q : string) :
  clear_of a (String c u) -> String.prefix a (String c (u ++ q)) = false.
Proof. intros H. by apply (H "" (String c u) q). Qed.

Lemma contains_clear (t u r : string) :
  clear_of t u -> Str.contains t (u ++ r) = Str.contains t r.
Proof.
  induction u as [|c u IH]; intros H; [reflexivity|].
  simpl String.append. rewrite contains_cons.
  rewrite (clear_of_head _ _ _ _ H). simpl.
  apply IH. by apply clear_of_tail in H.
Qed.

Lemma replace_scan_clear (k v u q : string) :
  clear_of k u ->
  Str.replace_scan k v 0 (u ++ q) = u ++ Str.replace_scan k v 0 q.
Proof.
  induction u as [|c u IH]; intros H; [reflexivity|].
  simpl String.append.
  rewrite replace_scan_miss by (by apply clear_of_head).
  f_equal. apply IH. by apply clear_of_tail in H.
Qed.

Lemma lacks_append (c : ascii) (s1 s2 : string) :
  lacks c (s1 ++ s2) = lacks c s1 && lacks c s2.
Proof.
  induction s1 as [|d s1 IH]; [reflexivity|].
  simpl. rewrite IH. by rewrite andb_assoc.
Qed.

(** The shape of a token, read off [is_placeholder]. *)
Lemma closes_name (s : string) :
  closes s = true ->
  exists name, s = name ++ "}}" /\ lacks "{" name = true /\ lacks "}" name = true.
Proof.
  induction s as [|c s IH]; [discriminate|]. simpl.
  destruct (Ascii.eqb_spec c "}") as [->|Hc].
  - intros ->%String.eqb_eq. by exists "".
  - destruct (Ascii.eqb_spec c "{") as [->|Ho]; [discriminate|].
    intros [name (-> & H1 & H2)]%IH. exists (String c name).
    split; [reflexivity|]. simpl. rewrite H1, H2.
    split; apply andb_true_intro; split; try reflexivity;
      apply negb_true_iff, Ascii.eqb_neq; congruence.
Qed.

Lemma is_placeholder_name (s : string) :
  is_placeholder s = true ->
  exists name, s = "{{" ++ name ++ "}}" /\
               lacks "{" name = true /\ lacks "}" name = true.
Proof.
  destruct s as [|c1 [|c2 s]]; try discriminate. simpl.
  intros [[->%Ascii.eqb_eq ->%Ascii.eqb_eq]%andb_true_iff H]%andb_true_iff.
  destruct (closes_name _ H) as [name (-> & H1 & H2)]. by exists name.
Qed.

(** Two names closed at the same place are the same name. *)
Lemma same_name (n m q : string) :
  lacks "}" n = true -> lacks "}" m = true ->
  String.prefix (n ++ "}}") ((m ++ "}}") ++ q) = true -> n = m.
Proof.
  revert m. induction n as [|c n IH]; intros [|d m] Hn Hm H; simpl in *.
  - reflexivity.
  - rewrite prefix_cons_eq in H. destruct (ascii_dec "}" d) as [<-|]; [|discriminate].
    discriminate.
  - rewrite prefix_cons_eq in H. destruct (ascii_dec c "}") as [->|]; [|discriminate].
    discriminate.
  - rewrite prefix_cons_eq in H. destruct (ascii_dec c d) as [->|]; [|discriminate].
    apply andb_true_iff in Hn as [_ Hn]. apply andb_true_iff in Hm as [_ Hm].
    f_equal. by apply IH.
Qed.

Lemma lacks_head (c : ascii) (u1 u2 s : string) :
  lacks c s = true -> s = u1 ++ u2 -> u2 <> "" ->
  exists d u2', u2 = String d u2' /\ c <> d.
Proof.
  intros H -> Hne. destruct u2 as [|d u2']; [contradiction|].
  exists d, u2'. split; [reflexivity|].
  rewrite lacks_append in H. apply andb_true_iff in H as [_ H].
  simpl in H. apply andb_true_iff in H as [H _].
  by apply negb_true_iff, Ascii.eqb_neq in H.
Qed.

Lemma placeholders_clear (a b : string) :
  is_placeholder a = true -> is_placeholder b = true -> a <> b ->
  clear_of a b.
Proof.
  intros (n & -> & Hn1 & Hn2)%is_placeholder_name
         (m & -> & Hm1 & Hm2)%is_placeholder_name Hab u1 u2 q Hsplit Hne.
  assert (lacks "{" (m ++ "}}") = true) as Hm.
  { rewrite lacks_append, Hm1. reflexivity. }
  destruct u1 as [|c1 [|c2 u1]]; simpl in Hsplit.
  - subst u2. simpl. rewrite !prefix_cons_eq. simpl.
    destruct (String.prefix (n ++ "}}") ((m ++ "}}") ++ q)) eqn:H; [|reflexivity].
    apply same_name in H; [|assumption..]. congruence.
  - injection Hsplit as <- <-. simpl. rewrite !prefix_cons_eq. simpl.
    destruct (lacks_head _ "" (m ++ "}}") _ Hm eq_refl) as (d & r & Hd & Hneq).
    { by destruct m. }
    rewrite Hd. simpl. rewrite prefix_cons_eq.
    by destruct (ascii_dec "{" d).
  - injection Hsplit as <- <- Hsplit.
    destruct (lacks_head _ _ _ _ Hm Hsplit Hne) as (d & r & -> & Hneq).
    simpl. rewrite prefix_cons_eq. by destruct (ascii_dec "{" d).
Qed.

Lemma is_placeholder_nonempty (s : string) : is_placeholder s = true -> s <> "".
Proof. by destruct s. Qed.

(** A token other than the replaced one is still there after the scan. *)
Lemma replace_scan_keeps (k v t s : string) (n : nat) :
  is_placeholder k = true -> is_placeholder t = true -> k <> t ->
  Str.contains t (Str.drop n s) = true ->
  Str.contains t (Str.replace_scan k v n s) = true.
Proof.
  intros Hk Ht Hkt. revert n.
  induction s as [|c s IH]; intros n H.
  - exfalso. destruct n; simpl in H;
      rewrite prefix_nil_r in H by (by apply is_placeholder_nonempty);
      discriminate.
  - destruct n as [|n]; [|by apply IH].
    simpl Str.drop in H. cbn [Str.replace_scan].
    destruct (String.prefix k (String c s)) eqn:Hp.
    + apply contains_append_r, IH.
      destruct (prefix_split _ _ Hp) as [r Hr].
      rewrite Hr, contains_clear in H by (by apply placeholders_clear).
      destruct k as [|d k]; [discriminate|].
      simpl in Hr. injection Hr as -> ->. simpl String.length.
      replace (S (String.length k) - 1) with (String.length k) by lia.
      by rewrite drop_append.
    + rewrite contains_cons in H. apply orb_true_iff in H as [H|H].
      * rewrite <- (replace_scan_miss k v) by assumption.
        destruct (prefix_split _ _ H) as [q ->].
        rewrite replace_scan_clear by (by apply placeholders_clear).
        apply contains_prefix, prefix_append.
      * rewrite contains_cons, (IH 0 H). apply orb_true_r.
Qed.

Lemma replace_keeps (k v t s : string) :
  is_placeholder k = true -> is_placeholder t = true -> k <> t ->
  Str.contains t s = true -> Str.contains t (Str.replace k v s) = true.
Proof.
  intros Hk Ht Hkt H.
  rewrite replace_nonempty by (by apply is_placeholder_nonempty).
  by apply replace_scan_keeps.
Qed.

End StrFacts.


(** ** Binds and returns *)

Lemma bind_Ret {S A B} (m : M S A) (k : A -> M S B) (s s' : S) (b : B) :
  bind m k s = Ret b s' -> exists a s1, m s = Ret a s1 /\ k a s1 = Ret b s'.
Proof. unfold bind. destruct (m s) as [a s1|]; [eauto | discriminate]. Qed.

Lemma bind_step {S A B} (m : M S A) (k : A -> M S B) (s s1 : S) (a : A) :
  m s = Ret a s1 -> bind m k s = k a s1.
Proof. unfold bind. by intros ->. Qed.

Lemma ret_Ret {S A} (a b : A) (s s' : S) :
  ret a s = Ret b s' -> b = a /\ s' = s.
Proof. unfold ret. by injection 1. Qed.

Lemma bind_ext {S A B} (m1 m2 : M S A) (k : A -> M S B) (s : S) :
  m1 s = m2 s -> bind m1 k s = bind m2 k s.
Proof. unfold bind. by intros ->. Qed.


(** ** The text that the library stores *)

Lemma escape_append (s1 s2 : string) :
  Xml.escape (s1 ++ s2) = Xml.escape s1 ++ Xml.escape s2.
Proof.
  induction s1 as [|c s1 IH]; [reflexivity|].
  cbn [String.append Xml.escape]. rewrite IH.
  destruct (Xml.is_control c); [|reflexivity].
  by rewrite append_assoc.
Qed.

Lemma escape_clean (s : string) : Xml.clean s = true -> Xml.escape s = s.
Proof.
  induction s as [|c s IH]; [reflexivity|].
  cbn [Xml.clean Xml.escape]. intros [Hc Hs]%andb_true_iff.
  apply negb_true_iff in Hc. rewrite Hc. by rewrite IH.
Qed.

Lemma written_inv (s t : string) :
  Xml.written s = Some t ->
  t = Xml.escape s /\ Xml.compatible (Xml.escape s) = true.
Proof.
  unfold Xml.written. destruct (Xml.compatible (Xml.escape s)); [|discriminate].
  by intros [= <-].
Qed.

Lemma written_clean (s : string) :
  Xml.clean s = true -> Xml.compatible s = true -> Xml.written s = Some s.
Proof.
  intros Hclean Hok. unfold Xml.written.
  by rewrite (escape_clean s Hclean), Hok.
Qed.

Lemma contains_split (t s : string) :
  Str.contains t s = true -> exists a b, s = a ++ t ++ b.
Proof.
  induction s as [|c s IH].
  - cbn [Str.contains]. rewrite orb_false_r.
    intros [b ->]%prefix_split. by exists "", b.
  - rewrite contains_cons. intros [H|H]%orb_true_iff.
    + apply prefix_split in H as [b ->]. by exists "", b.
    + destruct (IH H) as (a & b & ->). by exists (String c a), b.
Qed.

(** A text without control characters that is in [s] is still there in
    what the library stores for [s]. *)
Lemma contains_escape (t s : string) :
  Xml.clean t = true ->
  Str.contains t s = true -> Str.contains t (Xml.escape s) = true.
Proof.
  intros Hclean (a & b & ->)%contains_split.
  rewrite !escape_append, (escape_clean t Hclean).
  apply contains_append_r, contains_prefix, prefix_append.
Qed.

(** ** The relationships of a part *)

Lemma first_match_Some (type target : string) (rs : list Relationship) (k : nat) :
  first_match type target rs = Some k ->
  exists rel, rs !! k = Some rel /\ matches type target rel = true.
Proof.
  revert k. induction rs as [|rel rs IH]; intros k; [discriminate|].
  simpl. destruct (matches type target rel) eqn:Hrel.
  - intros [= <-]. by exists rel.
  - destruct (first_match type target rs) as [j|]; [|discriminate].
    intros [= <-]. by apply IH.
Qed.

Lemma matches_target (type target : string) (rel : Relationship) :
  matches type target rel = true -> target_ref rel = target.
Proof.
  unfold matches. intros [_ H]%andb_true_iff. by apply String.eqb_eq.
Qed.

(** ** The hyperlink injector *)

Ltac at_site :=
  match goal with
  | |- context [if ?raised then Exc _ _ else _] => destruct raised eqn:?; simpl
  | |- context [match first_match ?type ?target ?rs with _ => _ end] =>
      destruct (first_match type target rs) eqn:?; simpl
  end.

(** Everything the injector does, whichever calls fail. *)
Lemma add_hyperlink_to_run_effects (url : string) (run : Run) (e : Env) :
  let n := injections e in
  exists run' e',
    add_hyperlink_to_run url (run, e) = Ret (try_succeeds e n run) (run', e') /\
    part run' = part run /\
    text run' = text run /\
    same_character run run' /\
    packages e' = packages e /\ raises e' = raises e /\
    injections e' = S n /\
    rels e' = (if relates e n then rels_with e (part run) url else rels e) /\
    Font.hlinkClick (font run') =
      (if attaches e n run
       then Font.hlinkClick (font run) ++ [rId_for e (part run) url]
       else Font.hlinkClick (font run))%list /\
    (attaches e n run = true -> relates e n = true) /\
    (try_succeeds e n run = true ->
       attaches e n run = true /\
       Font.fill (font run') = SolidFill (Some (RGB blue_link)) /\
       Font.underline (font run') = Some true) /\
    (try_succeeds e n run = false ->
       raises e n at_fallback_color = false ->
       Font.fill (font run') = SolidFill (Some (RGB blue_link)) /\
       (raises e n at_fallback_underline = false ->
        Font.underline (font run') = Some true)).
Proof.
  destruct run as [p t [f|]]; destruct e as [pk rs n rl];
    unfold add_hyperlink_to_run, try_succeeds, try_sites, attaches, link_sites,
      relates, try_except, hyperlink_body, hyperlink_fallback, try_except,
      relate_to, rels_with, rId_for, part_rels, find_rPr, on_run, lib, bind,
      ret, same_character, count_injection, font;
    simpl;
    repeat (at_site;
            try (eexists _, _; split; [reflexivity|]; simpl;
                 intuition (discriminate || congruence))).
Qed.

Lemma rels_grow_refl (e : Env) : rels_grow e e.
Proof. by intros p. Qed.

Lemma rels_grow_trans (e1 e2 e3 : Env) :
  rels_grow e1 e2 -> rels_grow e2 e3 -> rels_grow e1 e3.
Proof. intros H12 H23 p. etrans; [apply H12 | apply H23]. Qed.

Lemma named_grows (e e' : Env) (p rId : nat) (rel : Relationship) :
  rels_grow e e' -> named e p rId = Some rel -> named e' p rId = Some rel.
Proof.
  intros Hgrow. destruct rId as [|k]; [discriminate|]. simpl.
  intros H. eapply prefix_lookup_Some; [exact H | apply Hgrow].
Qed.

Lemma target_grows (e e' : Env) (p rId : nat) (url : string) :
  rels_grow e e' -> target e p rId = Some url -> target e' p rId = Some url.
Proof.
  intros Hgrow. unfold target.
  destruct (named e p rId) as [rel|] eqn:Hrel; [|discriminate].
  by rewrite (named_grows _ _ _ _ _ Hgrow Hrel).
Qed.

(** What [relate_to] leaves: the relationships it found, and the one it
    returns goes to the URL. *)
Lemma rels_with_spec (e e' : Env) (p : nat) (url : string) :
  rels e' = rels_with e p url ->
  rels_grow e e' /\ target e' p (rId_for e p url) = Some url.
Proof.
  unfold rels_with, rId_for, rels_grow, target, named, part_rels.
  intros ->.
  destruct (first_match RT_HYPERLINK url (default [] (rels e !! p)))
    as [k|] eqn:Hfind.
  - split; [done|].
    apply first_match_Some in Hfind as (rel & -> & Hrel). simpl.
    by rewrite (matches_target _ _ _ Hrel).
  - split.
    + intros q. destruct (decide (q = p)) as [->|Hne].
      * rewrite lookup_insert_eq. simpl. by apply prefix_app_r.
      * by rewrite lookup_insert_ne.
    + rewrite lookup_insert_eq. simpl.
      by rewrite lookup_app_r, Nat.sub_diag.
Qed.

Lemma add_hyperlink_to_run_links (url : string) (run run' : Run)
    (e e' : Env) (b : bool) :
  add_hyperlink_to_run url (run, e) = Ret b (run', e') ->
  rels_grow e e' /\
  (forall rId, rId ∈ Font.hlinkClick (font run') ->
     rId ∈ Font.hlinkClick (font run) \/
     target e' (part run) rId = Some url).
Proof.
  intros Hrun.
  destruct (add_hyperlink_to_run_effects url run e)
    as (r & e1 & H & _ & _ & _ & _ & _ & _ & Hrels & Hlinks & Hreg & _).
  rewrite Hrun in H. injection H as _ <- <-.
  split.
  - destruct (relates e (injections e)).
    + by apply rels_with_spec in Hrels as [? _].
    + intros p. unfold part_rels. by rewrite Hrels.
  - intros rId. rewrite Hlinks.
    destruct (attaches e (injections e) run) eqn:Hatt; [|by left].
    rewrite elem_of_app, list_elem_of_singleton.
    intros [H| ->]; [by left | right].
    rewrite (Hreg eq_refl) in Hrels.
    by apply rels_with_spec in Hrels as [_ ?].
Qed.

(** ** One item of the mapping on one run *)

Lemma same_character_refl (r : Run) : same_character r r.
Proof. by repeat split. Qed.

Lemma same_character_trans (r1 r2 r3 : Run) :
  same_character r1 r2 -> same_character r2 r3 -> same_character r1 r3.
Proof. unfold same_character. intuition congruence. Qed.

(** The body of the loop, without the reads and the writes that leave the
    run as it is: the text is stored, reading the colour makes the fill
    solid, and the run is made a link when its placeholder is one. *)
Lemma replace_item_eq (original_text : string)
    (clickable_links : gmap string string) (run : Run)
    (item : string * string) (e : Env) :
  replace_item original_text clickable_links run item e =
  if Str.contains item.1 original_text then
    match Xml.written (Str.replace item.1 item.2 original_text) with
    | None => Exc ValueError e
    | Some t =>
        match clickable_links !! item.1 with
        | Some url =>
            (r ← with_run (replaced t run) (add_hyperlink_to_run url);
             ret r.2) e
        | None => Ret (replaced t run) e
        end
    end
  else Ret run e.
Proof.
  unfold replace_item.
  destruct (Str.contains item.1 original_text); [|reflexivity].
  unfold set_text.
  destruct (Xml.written (Str.replace item.1 item.2 original_text)) as [t|];
    [|reflexivity].
  assert (forall r1 : Run, r1 = replaced t run ->
    match clickable_links !! item.1 with
    | Some url => r ← with_run r1 (add_hyperlink_to_run url); ret r.2
    | None => ret r1
    end e =
    match clickable_links !! item.1 with
    | Some url =>
        (r ← with_run (replaced t run) (add_hyperlink_to_run url); ret r.2) e
    | None => Ret (replaced t run) e
    end) as Hrest.
  { intros r1 ->. by destruct (clickable_links !! item.1). }
  destruct run as [p t0 [[nm sz bd it ul fl hl]|]].
  - destruct nm as [[|c s]|], sz as [[|q|q]|], bd as [bd|], it as [it|],
      fl as [|[[rgb|th|k]|]|k]; simpl; try case_decide; by apply Hrest.
  - simpl. by apply Hrest.
Qed.

Lemma add_hyperlink_to_run_inv (url : string) (run run' : Run)
    (e e' : Env) (b : bool) :
  add_hyperlink_to_run url (run, e) = Ret b (run', e') ->
  part run' = part run /\ text run' = text run /\ same_character run run' /\
  packages e' = packages e /\ raises e' = raises e /\ rels_grow e e'.
Proof.
  intros Hrun.
  destruct (add_hyperlink_to_run_links _ _ _ _ _ _ Hrun) as [Hgrow _].
  destruct (add_hyperlink_to_run_effects url run e)
    as (r & e1 & H & Hp & Ht & Hs & Hpk & Hrs & _).
  rewrite Hrun in H. injection H as _ <- <-. by split_and!.
Qed.

Lemma replaced_character (t : string) (run : Run) :
  same_character run (replaced t run).
Proof. by repeat split. Qed.

Lemma color_color (f : Font.t) : Font.read_color (Font.read_color f) = Font.read_color f.
Proof. by destruct f as [? ? ? ? ? [|?|?] ?]. Qed.

(** What one item does when the body returns. *)
Lemma replace_item_inv (original_text : string)
    (clickable_links : gmap string string) (run run' : Run)
    (item : string * string) (e e' : Env) :
  replace_item original_text clickable_links run item e = Ret run' e' ->
  (Str.contains item.1 original_text = false /\ run' = run /\ e' = e) \/
  (Str.contains item.1 original_text = true /\
   Xml.compatible (Xml.escape (Str.replace item.1 item.2 original_text)) = true /\
   let r1 := replaced (stored (Str.replace item.1 item.2 original_text)) run in
   match clickable_links !! item.1 with
   | None => run' = r1 /\ e' = e
   | Some url => exists b, add_hyperlink_to_run url (r1, e) = Ret b (run', e')
   end).
Proof.
  rewrite replace_item_eq.
  destruct (Str.contains item.1 original_text);
    [|intros [= <- <-]; by left].
  destruct (Xml.written _) as [t|] eqn:Ht; [|discriminate].
  apply written_inv in Ht as [-> Hok].
  intros H. right. split; [reflexivity|]. split; [exact Hok|]. simpl.
  unfold stored.
  destruct (clickable_links !! item.1) as [url|].
  - apply bind_Ret in H as ([b r2] & e2 & Hrun & [-> ->]%ret_Ret).
    unfold with_run in Hrun.
    destruct (add_hyperlink_to_run url _) as [b' [r3 e3]|] eqn:Hlink;
      [|discriminate].
    simpl in Hrun. injection Hrun as -> -> ->. by exists b.
  - by injection H as <- <-.
Qed.

(** When one item returns. *)
Lemma replace_item_returns (original_text : string)
    (clickable_links : gmap string string) (run : Run)
    (item : string * string) (e : Env) :
  negb (Str.contains item.1 original_text) ||
  Xml.compatible (Xml.escape (Str.replace item.1 item.2 original_text)) = true ->
  exists run' e',
    replace_item original_text clickable_links run item e = Ret run' e'.
Proof.
  rewrite replace_item_eq. unfold Xml.written.
  destruct (Str.contains item.1 original_text); [|by eexists _, _].
  simpl. intros ->.
  destruct (clickable_links !! item.1) as [url|]; [|by eexists _, _].
  match goal with
  | |- context [with_run ?r1 _] =>
      destruct (add_hyperlink_to_run_effects url r1 e) as (r2 & e2 & H & _)
  end.
  exists r2, e2. unfold bind, with_run, ret. by rewrite H.
Qed.

(** An item whose key is not in the text of the run does nothing. *)
Lemma replace_item_absent (original_text : string)
    (clickable_links : gmap string string) (run : Run)
    (item : string * string) (e : Env) :
  Str.contains item.1 original_text = false ->
  replace_item original_text clickable_links run item e = Ret run e.
Proof. intros H. rewrite replace_item_eq. by rewrite H. Qed.

(** ** The items of the mapping on one run *)

Lemma text_after_only (k v : string) (replacements : list (string * string))
    (original_text current : string) :
  (forall item, item ∈ replacements ->
     Str.contains item.1 original_text = true -> item = (k, v)) ->
  Str.contains k original_text = true ->
  (k, v) ∈ replacements \/ current = stored (Str.replace k v original_text) ->
  text_after replacements original_text current =
    stored (Str.replace k v original_text).
Proof.
  intros Honly Hin. revert current.
  induction replacements as [|item rest IH]; intros current Hcur.
  - destruct Hcur as [Hcur|Hcur]; [by apply elem_of_nil in Hcur | exact Hcur].
  - simpl. apply IH.
    + intros i Hi. apply Honly. by apply list_elem_of_further.
    + destruct (Str.contains item.1 original_text) eqn:Hitem.
      * right. by rewrite (Honly item (list_elem_of_here _ _) Hitem).
      * destruct Hcur as [Hcur|Hcur]; [|by right].
        apply elem_of_cons in Hcur as [Heq|Hcur]; [|by left].
        subst item. simpl in Hitem. congruence.
Qed.

Lemma text_after_keeps (t : string) (replacements : list (string * string))
    (original_text current : string) :
  is_placeholder t = true ->
  Xml.clean t = true ->
  (forall item, item ∈ replacements ->
     is_placeholder item.1 = true /\ item.1 <> t) ->
  Str.contains t original_text = true ->
  Str.contains t current = true ->
  Str.contains t (text_after replacements original_text current) = true.
Proof.
  intros Ht Hclean Hkeys Horig. revert current.
  induction replacements as [|item rest IH]; intros current Hcur; [exact Hcur|].
  simpl. apply IH.
  - intros i Hi. apply Hkeys. by apply list_elem_of_further.
  - destruct (Hkeys item (list_elem_of_here _ _)) as [Hk Hne].
    destruct (Str.contains item.1 original_text); [|exact Hcur].
    unfold stored. apply contains_escape; [exact Hclean|].
    by apply replace_keeps.
Qed.

Lemma text_after_none (replacements : list (string * string))
    (original_text current : string) :
  (forall item, item ∈ replacements ->
     Str.contains item.1 original_text = false) ->
  text_after replacements original_text current = current.
Proof.
  revert current. induction replacements as [|item rest IH];
    intros current H; [reflexivity|].
  simpl. rewrite (H item (list_elem_of_here _ _)).
  apply IH. intros i Hi. by apply H, list_elem_of_further.
Qed.

(** What the loop over the items does to the run, when it returns. *)
Lemma foldM_replace_item_inv (original_text : string)
    (clickable_links : gmap string string)
    (replacements : list (string * string)) :
  forall run e run' e',
    foldM (replace_item original_text clickable_links) run replacements e =
      Ret run' e' ->
    text run' = text_after replacements original_text (text run) /\
    part run' = part run /\
    same_character run run' /\
    packages e' = packages e /\ raises e' = raises e /\
    rels_grow e e' /\
    ((forall item, item ∈ replacements ->
        Str.contains item.1 original_text = true ->
        clickable_links !! item.1 = None) ->
     font run' = (if found replacements original_text
                  then Font.read_color (font run) else font run) /\
     e' = e).
Proof.
  unfold text_after, found.
  induction replacements as [|item rest IH]; intros run e run' e'.
  - intros [-> ->]%ret_Ret.
    split_and!; first [done | apply same_character_refl | apply rels_grow_refl].
  - simpl. intros (r1 & e1 & Hstep & Hrest)%bind_Ret.
    apply IH in Hrest as (Ht2 & Hp2 & Hs2 & Hpk2 & Hrs2 & Hg2 & Hf2).
    apply replace_item_inv in Hstep
      as [(Hin & -> & ->)|(Hin & Hok & Hcase)]; rewrite Hin; simpl.
    { split_and!; try assumption.
      intros Hplain. apply Hf2. intros i Hi.
      by apply Hplain, list_elem_of_further. }
    simpl in Hcase.
    set (r0 := replaced (stored (Str.replace item.1 item.2 original_text)) run)
      in *.
    assert (text r1 = text r0 /\ part r1 = part run /\ same_character run r1 /\
            packages e1 = packages e /\ raises e1 = raises e /\
            rels_grow e e1 /\
            (clickable_links !! item.1 = None -> r1 = r0 /\ e1 = e))
      as (Ht1 & Hp1 & Hs1 & Hpk1 & Hrs1 & Hg1 & Hf1).
    { destruct (clickable_links !! item.1) as [url|].
      - destruct Hcase as [b Hlink].
        apply add_hyperlink_to_run_inv in Hlink
          as (Hp & Ht & Hs & Hpk & Hrs & Hg).
        split_and!; try assumption; try discriminate.
      - destruct Hcase as [-> ->].
        split_and!;
          first [done | apply replaced_character | apply rels_grow_refl]. }
    split; [by rewrite Ht2, Ht1|]. split; [congruence|].
    split; [by eapply same_character_trans|].
    split; [congruence|]. split; [congruence|].
    split; [by eapply rels_grow_trans|].
    intros Hplain.
    destruct Hf1 as [-> ->]; [by apply Hplain; [apply list_elem_of_here|]|].
    destruct Hf2 as [Hf2 ->];
      [intros i Hi; by apply Hplain, list_elem_of_further|].
    split; [|reflexivity]. rewrite Hf2. unfold r0, replaced, font. simpl.
    destruct (existsb _ rest); [apply color_color | reflexivity].
Qed.

Lemma foldM_replace_item_writable (original_text : string)
    (clickable_links : gmap string string)
    (replacements : list (string * string)) (run : Run) (e : Env) :
  (exists run' e',
     foldM (replace_item original_text clickable_links) run replacements e =
       Ret run' e') <->
  forallb
    (fun item : string * string =>
       negb (Str.contains item.1 original_text) ||
       Xml.compatible (Xml.escape (Str.replace item.1 item.2 original_text)))
    replacements = true.
Proof.
  revert run e. induction replacements as [|item rest IH]; intros run e.
  - split; [reflexivity | by eexists _, _].
  - simpl. rewrite andb_true_iff. split.
    + intros (run' & e' & (r1 & e1 & Hstep & Hrest)%bind_Ret). split.
      * apply replace_item_inv in Hstep as [(-> & _)|(-> & -> & _)]; reflexivity.
      * apply (IH r1 e1). eauto.
    + intros [Hitem Hrest].
      destruct (replace_item_returns original_text clickable_links run item e
                  Hitem) as (r1 & e1 & Hstep).
      destruct (proj2 (IH r1 e1) Hrest) as (run' & e' & Hfold).
      exists run', e'. unfold bind. by rewrite Hstep.
Qed.

Lemma replace_in_run_inv (replacements : list (string * string))
    (clickable_links : gmap string string) (run run' : Run) (e e' : Env) :
  replace_in_run replacements clickable_links run e = Ret run' e' ->
  text run' = text_after replacements (text run) (text run) /\
  part run' = part run /\
  same_character run run' /\
  packages e' = packages e /\ raises e' = raises e /\
  rels_grow e e' /\
  ((forall item, item ∈ replacements ->
      Str.contains item.1 (text run) = true ->
      clickable_links !! item.1 = None) ->
   font run' = (if found replacements (text run)
                then Font.read_color (font run) else font run) /\
   e' = e).
Proof. apply foldM_replace_item_inv. Qed.

(** The replacer returns on a run exactly when the run is writable. *)
Lemma replace_in_run_writable (replacements : list (string * string))
    (clickable_links : gmap string string) (run : Run) (e : Env) :
  (exists run' e',
     replace_in_run replacements clickable_links run e = Ret run' e') <->
  writable replacements run = true.
Proof. apply foldM_replace_item_writable. Qed.

Lemma foldM_skip {A B} (f : A -> B -> M Env A) (x : B) (xs ys : list B) :
  (forall a e, f a x e = Ret a e) ->
  forall a e, foldM f a (xs ++ x :: ys)%list e = foldM f a (xs ++ ys)%list e.
Proof.
  intros Hx. induction xs as [|y xs IH]; intros a e; simpl; unfold bind.
  - by rewrite Hx.
  - destruct (f a y e); [apply IH | reflexivity].
Qed.

Lemma foldM_ext {A B} (f g : A -> B -> M Env A) (xs : list B) :
  (forall x, x ∈ xs -> forall a e, f a x e = g a x e) ->
  forall a e, foldM f a xs e = foldM g a xs e.
Proof.
  induction xs as [|x xs IH]; intros H a e; [reflexivity|].
  simpl. unfold bind. rewrite (H x (list_elem_of_here _ _)).
  destruct (g a x e) as [a1 e1|]; [|reflexivity].
  apply IH. intros y Hy. by apply H, list_elem_of_further.
Qed.

Lemma replace_in_run_absent (replacements : list (string * string))
    (clickable_links : gmap string string) (run : Run) (e : Env) :
  (forall item, item ∈ replacements ->
     Str.contains item.1 (text run) = false) ->
  replace_in_run replacements clickable_links run e = Ret run e.
Proof.
  unfold replace_in_run. generalize (text run) at 1 2 as original_text.
  intros original_text. induction replacements as [|item rest IH]; intros H;
    [reflexivity|].
  simpl. erewrite bind_step;
    [|apply replace_item_absent, H, list_elem_of_here].
  apply IH. intros i Hi. by apply H, list_elem_of_further.
Qed.

(** ** Loops over lists *)

Section Loops.
Context {A : Type}.

Lemma forM_ext (f g : A -> M Env A) (xs : list A) :
  (forall x, x ∈ xs -> forall e, f x e = g x e) ->
  forall e, forM f xs e = forM g xs e.
Proof.
  induction xs as [|x xs IH]; intros H e; [reflexivity|].
  simpl. unfold bind. rewrite (H x (list_elem_of_here _ _)).
  destruct (g x e) as [y e1|]; [|reflexivity].
  rewrite IH; [reflexivity|]. intros z Hz. by apply H, list_elem_of_further.
Qed.

Lemma forM_id (f : A -> M Env A) (xs : list A) :
  (forall x, x ∈ xs -> forall e, f x e = Ret x e) ->
  forall e, forM f xs e = Ret xs e.
Proof.
  induction xs as [|x xs IH]; intros H e; [reflexivity|].
  simpl. unfold bind. rewrite (H x (list_elem_of_here _ _)).
  rewrite IH; [reflexivity|]. intros z Hz. by apply H, list_elem_of_further.
Qed.

(** A loop whose body returns on every element returns. *)
Lemma forM_total (f : A -> M Env A) (xs : list A) :
  (forall x, x ∈ xs -> forall e, exists y e', f x e = Ret y e') ->
  forall e, exists ys e', forM f xs e = Ret ys e'.
Proof.
  induction xs as [|x xs IH]; intros H e.
  - by exists [], e.
  - destruct (H x (list_elem_of_here _ _) e) as (y & e1 & Hy).
    destruct (IH (fun z Hz => H z (list_elem_of_further _ _ _ Hz)) e1)
      as (ys & e2 & Hys).
    exists (y :: ys), e2. simpl. unfold bind, ret. by rewrite Hy, Hys.
Qed.

(** A loop that returns has run its body, with a result, on every
    element. *)
Lemma forM_Ret_all (f : A -> M Env A) (xs : list A) :
  forall e ys e',
    forM f xs e = Ret ys e' ->
    forall x, x ∈ xs -> exists e1 y e2, f x e1 = Ret y e2.
Proof.
  induction xs as [|x xs IH]; intros e ys e' Hrun z Hz.
  - by apply elem_of_nil in Hz.
  - simpl in Hrun.
    apply bind_Ret in Hrun as (y & e1 & Hy & Hrun).
    apply bind_Ret in Hrun as (ys1 & e2 & Hys & _).
    apply elem_of_cons in Hz as [->|Hz]; [by eexists _, _, _|].
    by eapply IH.
Qed.


(** A relation between what the body gets, what it leaves and the
    environment, that stays true when the environment moves along [I],
    holds at the end of the loop for every element. *)
Lemma forM_grow (f : A -> M Env A) (R : A -> A -> Env -> Prop)
    (I : Env -> Env -> Prop) (e0 : Env) (xs : list A) :
  (forall e, I e e) ->
  (forall e1 e2 e3, I e1 e2 -> I e2 e3 -> I e1 e3) ->
  (forall x y e e', I e e' -> R x y e -> R x y e') ->
  (forall x, x ∈ xs -> forall e y e',
     I e0 e -> f x e = Ret y e' -> R x y e' /\ I e e') ->
  forall e ys e',
    I e0 e -> forM f xs e = Ret ys e' ->
    Forall2 (fun x y => R x y e') xs ys /\ I e e'.
Proof.
  intros Hrefl Htrans Hstable.
  induction xs as [|x xs IH]; intros H e ys e' He Hrun.
  - injection Hrun as <- <-. by split.
  - simpl in Hrun.
    apply bind_Ret in Hrun as (y & e1 & Hy & Hrun).
    apply bind_Ret in Hrun as (ys1 & e2 & Hys & [-> ->]%ret_Ret).
    destruct (H x (list_elem_of_here _ _) e y e1 He Hy) as [HR HI].
    destruct (IH (fun z Hz => H z (list_elem_of_further _ _ _ Hz)) e1 ys1 e2)
      as [HRs HIs]; [by eapply Htrans | exact Hys |].
    split; [|by eapply Htrans].
    constructor; [by eapply Hstable | exact HRs].
Qed.

(** The same for a relation between what the body gets and what it
    leaves. *)
Lemma forM_rel (f : A -> M Env A) (P : A -> A -> Prop)
    (I : Env -> Env -> Prop) (xs : list A) :
  (forall e, I e e) ->
  (forall e1 e2 e3, I e1 e2 -> I e2 e3 -> I e1 e3) ->
  (forall x, x ∈ xs -> forall e y e', f x e = Ret y e' -> P x y /\ I e e') ->
  forall e ys e',
    forM f xs e = Ret ys e' -> Forall2 P xs ys /\ I e e'.
Proof.
  intros Hrefl Htrans H e ys e' Hrun.
  destruct (forM_grow f (fun x y _ => P x y) I e xs Hrefl Htrans)
    with (e := e) (ys := ys) (e' := e') as [HP HI]; try done.
  intros x Hx e1 y e2 _. by apply H.
Qed.


(** Running the body on every element of every [g x], in order, is what
    a loop does whose body runs it on [g x]. *)
Lemma forM_flat {B : Type} (F : B -> M Env B) (f : A -> M Env A)
    (g : B -> list A) (xs : list B) :
  (forall x, x ∈ xs -> forall e1 x' e2,
     F x e1 = Ret x' e2 -> forM f (g x) e1 = Ret (g x') e2) ->
  forall e xs' e',
    forM F xs e = Ret xs' e' ->
    forM f (flat_map g xs) e = Ret (flat_map g xs') e'.
Proof.
  assert (forall (us vs us' vs' : list A) e0 e1 e2,
    forM f us e0 = Ret us' e1 -> forM f vs e1 = Ret vs' e2 ->
    forM f (us ++ vs)%list e0 = Ret (us' ++ vs')%list e2) as Happ.
  { induction us as [|u us IHu]; intros vs us' vs' e0 e1 e2 H1 H2.
    - injection H1 as <- <-. exact H2.
    - simpl in *. unfold bind, ret in *.
      destruct (f u e0) as [u1 e01|]; [|discriminate].
      destruct (forM f us e01) as [us1 e02|] eqn:Hus; [|discriminate].
      injection H1 as <- <-.
      by rewrite (IHu vs us1 vs' e01 e02 e2 Hus H2). }
  induction xs as [|x xs IH]; intros H e xs' e' Hrun.
  - injection Hrun as <- <-. reflexivity.
  - simpl in Hrun. unfold bind, ret in Hrun.
    destruct (F x e) as [x1 e1|] eqn:Hx; [|discriminate].
    destruct (forM F xs e1) as [xs1 e2|] eqn:Hxs; [|discriminate].
    injection Hrun as <- <-. simpl.
    eapply Happ.
    + by eapply H; [apply list_elem_of_here|].
    + apply IH; [|assumption].
      intros z Hz. by apply H, list_elem_of_further.
Qed.

End Loops.

Lemma Forall2_same_source {A B} (P : A -> B -> Prop) (Q : B -> B -> Prop)
    (xs : list A) (ys zs : list B) :
  (forall x y z, P x y -> P x z -> Q y z) ->
  Forall2 P xs ys -> Forall2 P xs zs -> Forall2 Q ys zs.
Proof.
  intros H Hys. revert zs.
  induction Hys as [|x y xs ys Hxy _ IH]; intros zs Hzs.
  - apply Forall2_nil_inv_l in Hzs as ->. constructor.
  - apply Forall2_cons_inv_l in Hzs as (z & zs' & Hxz & Hzs & ->).
    constructor; [by eapply H | by apply IH].
Qed.

Lemma elem_of_flat_map {A B} (g : B -> list A) (x : A) (y : B) (ys : list B) :
  x ∈ g y -> y ∈ ys -> x ∈ flat_map g ys.
Proof.
  rewrite !list_elem_of_In, in_flat_map. intros H1 H2. by exists y.
Qed.

(** ** The walk over frames, tables and shapes *)

Lemma Shape_ind' (P : Shape -> Prop) :
  (forall tf tbl, P (mkShape tf tbl Absent)) ->
  (forall tf tbl, P (mkShape tf tbl Failing)) ->
  (forall tf tbl subs, Forall P subs -> P (mkShape tf tbl (Present subs))) ->
  forall shape, P shape.
Proof.
  intros Hleaf Hfail Hgroup.
  exact (fix IH (shape : Shape) : P shape :=
           match shape with
           | mkShape tf tbl Absent => Hleaf tf tbl
           | mkShape tf tbl Failing => Hfail tf tbl
           | mkShape tf tbl (Present subs) =>
               Hgroup tf tbl subs
                 ((fix go (l : list Shape) : Forall P l :=
                     match l with
                     | [] => @List.Forall_nil _ P
                     | x :: r => @List.Forall_cons _ P x r (IH x) (go r)
                     end) subs)
           end).
Qed.


Section Walk.
Variable replacements : list (string * string).
Variable clickable_links : option (gmap string string).

(** The body of the loop over the runs. *)
Local Abbreviation on_each :=
  (replace_in_run replacements (default ∅ clickable_links)).

(** The loops of the walk. *)
Local Abbreviation on_rows :=
  (forM (fun row =>
           cs ← forM (fun cell =>
                        tf' ← find_and_replace_in_text_frame
                                (cell_text_frame cell)
                                replacements clickable_links;
                        ret (mkCell tf'))
                     (cells row);
           ret (mkRow cs))).

Local Abbreviation on_slides :=
  (forM (fun slide =>
           shs ← forM (fun shape =>
                         find_and_replace_in_shape shape
                           replacements clickable_links)
                      (slide_shapes slide);
           ret (mkSlide shs))).

Lemma frame_visits (tf tf' : TextFrame) (e e' : Env) :
  find_and_replace_in_text_frame tf replacements clickable_links e = Ret tf' e' ->
  forM on_each (frame_runs tf) e = Ret (frame_runs tf') e'.
Proof.
  unfold find_and_replace_in_text_frame.
  intros (ps & e1 & Hps & [-> ->]%ret_Ret)%bind_Ret.
  unfold frame_runs. simpl. eapply forM_flat; [|exact Hps].
  intros p _ e2 p' e3 (rs & e4 & Hrs & [-> ->]%ret_Ret)%bind_Ret.
  exact Hrs.
Qed.

Lemma table_visits (tbl : Table) (rs : list Row) (e e' : Env) :
  on_rows (rows tbl) e = Ret rs e' ->
  forM on_each (table_runs tbl) e = Ret (table_runs (mkTable rs)) e'.
Proof.
  intros Hrows. unfold table_runs. simpl. eapply forM_flat; [|exact Hrows].
  intros row _ e1 row' e2 (cs & e3 & Hcs & [-> ->]%ret_Ret)%bind_Ret.
  simpl. eapply forM_flat; [|exact Hcs].
  intros cell _ e4 cell' e5 (tf' & e6 & Htf & [-> ->]%ret_Ret)%bind_Ret.
  by apply frame_visits.
Qed.

(** The walk runs the replacer on the runs of the shape, one after the
    other, and on nothing else. *)
Lemma shape_visits (shape : Shape) :
  forall shape' e e',
    find_and_replace_in_shape shape replacements clickable_links e =
      Ret shape' e' ->
    forM on_each (shape_runs shape) e = Ret (shape_runs shape') e'.
Proof.
  induction shape as [tf tbl|tf tbl|tf tbl subs IH] using Shape_ind';
    intros shape' e e'; simpl;
    destruct tf as [|tf|], tbl as [|tbl|]; simpl;
    try (intros ?; discriminate);
    try (intros (tf' & e1 & Htf & [-> ->]%ret_Ret)%bind_Ret;
         by apply frame_visits);
    try (intros (rs & e1 & Hrs & [-> ->]%ret_Ret)%bind_Ret;
         by apply table_visits).
  - by intros [-> ->]%ret_Ret.
  - intros (subs' & e1 & Hsubs & [-> ->]%ret_Ret)%bind_Ret.
    simpl. eapply forM_flat; [|exact Hsubs].
    intros sub Hsub e2 sub' e3. rewrite Forall_forall in IH.
    by apply IH.
Qed.

Lemma slides_visits (prs : Presentation) (ss : list Slide) (e e' : Env) :
  on_slides (slides prs) e = Ret ss e' ->
  forM on_each (presentation_runs prs) e =
    Ret (presentation_runs (mkPresentation ss)) e'.
Proof.
  intros Hss. unfold presentation_runs. simpl.
  eapply forM_flat; [|exact Hss].
  intros slide _ e1 slide' e2 (shs & e3 & Hshs & [-> ->]%ret_Ret)%bind_Ret.
  simpl. eapply forM_flat; [|exact Hshs].
  intros shape _ e4 shape' e5. apply shape_visits.
Qed.

Ltac step H := eexists _, _; erewrite bind_step; [reflexivity | exact H].

(** *** When the walk returns *)

Lemma runs_total (rs : list Run) (e : Env) :
  (forall r, r ∈ rs -> writable replacements r = true) ->
  exists rs' e', forM on_each rs e = Ret rs' e'.
Proof.
  intros H. apply forM_total. intros r Hr e0.
  by apply replace_in_run_writable, H.
Qed.

Lemma frame_total (tf : TextFrame) (e : Env) :
  (forall r, r ∈ frame_runs tf -> writable replacements r = true) ->
  exists tf' e',
    find_and_replace_in_text_frame tf replacements clickable_links e = Ret tf' e'.
Proof.
  intros Hw. unfold find_and_replace_in_text_frame.
  destruct (forM_total
    (fun paragraph =>
       rs ← forM on_each (runs paragraph); ret (mkParagraph rs))
    (paragraphs tf)) with (e := e) as (ps & e' & H); [|step H].
  intros p Hp e0.
  destruct (runs_total (runs p) e0) as (rs & e1 & H); [|step H].
  intros r Hr. apply Hw. by eapply elem_of_flat_map.
Qed.

Lemma table_total (tbl : Table) (e : Env) :
  (forall r, r ∈ table_runs tbl -> writable replacements r = true) ->
  exists rs e', on_rows (rows tbl) e = Ret rs e'.
Proof.
  intros Hw. apply forM_total. intros row Hrow e0.
  match goal with
  | |- exists y e', bind (forM ?F _) _ _ = _ =>
      destruct (forM_total F (cells row)) with (e := e0)
        as (cs & e1 & H); [|step H]
  end.
  intros cell Hcell e2.
  destruct (frame_total (cell_text_frame cell) e2) as (tf' & e3 & H);
    [|step H].
  intros r Hr. apply Hw. unfold table_runs.
  eapply elem_of_flat_map; [|exact Hrow]. by eapply elem_of_flat_map.
Qed.

Lemma shape_total (shape : Shape) :
  answers shape = true ->
  (forall r, r ∈ shape_runs shape -> writable replacements r = true) ->
  forall e, exists shape' e',
    find_and_replace_in_shape shape replacements clickable_links e =
      Ret shape' e'.
Proof.
  induction shape as [tf tbl|tf tbl|tf tbl subs IH] using Shape_ind';
    simpl; intros Hans Hw e;
    destruct tf as [|tf|], tbl as [|tbl|]; simpl in *;
    try discriminate;
    try (destruct (frame_total tf e Hw) as (tf' & e' & H); step H);
    try (destruct (table_total tbl e Hw) as (rs & e' & H); step H).
  - by eexists _, _.
  - destruct (forM_total
      (fun sub_shape =>
         find_and_replace_in_shape sub_shape replacements clickable_links)
      subs) with (e := e) as (subs' & e' & H); [|step H].
    intros sub Hsub e0. rewrite Forall_forall in IH.
    apply IH; [assumption | |].
    + rewrite forallb_forall in Hans. by apply Hans, list_elem_of_In.
    + intros r Hr. apply Hw. by eapply elem_of_flat_map.
Qed.

Lemma runs_writable (rs rs' : list Run) (e e' : Env) :
  forM on_each rs e = Ret rs' e' ->
  forall r, r ∈ rs -> writable replacements r = true.
Proof.
  intros Hrun r Hr.
  destruct (forM_Ret_all _ _ _ _ _ Hrun r Hr) as (e1 & r' & e2 & H).
  apply (replace_in_run_writable replacements (default ∅ clickable_links) r e1).
  eauto.
Qed.

Lemma shape_answers (shape : Shape) :
  forall shape' e e',
    find_and_replace_in_shape shape replacements clickable_links e =
      Ret shape' e' ->
    answers shape = true.
Proof.
  induction shape as [tf tbl|tf tbl|tf tbl subs IH] using Shape_ind';
    intros shape' e e'; simpl;
    destruct tf as [|tf|], tbl as [|tbl|]; simpl;
    try (intros ?; discriminate); try reflexivity.
  intros (subs' & e1 & Hsubs & _)%bind_Ret.
  apply forallb_forall. intros sub Hsub%list_elem_of_In.
  destruct (forM_Ret_all _ _ _ _ _ Hsubs sub Hsub) as (e2 & s' & e3 & H).
  rewrite Forall_forall in IH. by eapply IH.
Qed.

(** *** What holds of every run once the walk has returned *)

Lemma shape_rel (P : Run -> Run -> Prop) (I : Env -> Env -> Prop) :
  (forall e, I e e) ->
  (forall e1 e2 e3, I e1 e2 -> I e2 e3 -> I e1 e3) ->
  (forall r e r' e', on_each r e = Ret r' e' -> P r r' /\ I e e') ->
  forall shape e shape' e',
    find_and_replace_in_shape shape replacements clickable_links e =
      Ret shape' e' ->
    Forall2 P (shape_runs shape) (shape_runs shape') /\ I e e'.
Proof.
  intros Hrefl Htrans Hstep shape e shape' e' Hwalk%shape_visits.
  eapply forM_rel; [exact Hrefl | exact Htrans | | exact Hwalk].
  intros r _ e1 r' e2. apply Hstep.
Qed.

Lemma frame_rel (P : Run -> Run -> Prop) (I : Env -> Env -> Prop) :
  (forall e, I e e) ->
  (forall e1 e2 e3, I e1 e2 -> I e2 e3 -> I e1 e3) ->
  (forall r e r' e', on_each r e = Ret r' e' -> P r r' /\ I e e') ->
  forall tf e tf' e',
    find_and_replace_in_text_frame tf replacements clickable_links e =
      Ret tf' e' ->
    Forall2 P (frame_runs tf) (frame_runs tf') /\ I e e'.
Proof.
  intros Hrefl Htrans Hstep tf e tf' e' Hrun%frame_visits.
  eapply forM_rel; [exact Hrefl | exact Htrans | | exact Hrun].
  intros r _ e1 r' e2. apply Hstep.
Qed.

(** The same for a relation that looks at the environment the walk ends
    in. *)
Lemma frame_grow (R : Run -> Run -> Env -> Prop) (I : Env -> Env -> Prop) :
  (forall e, I e e) ->
  (forall e1 e2 e3, I e1 e2 -> I e2 e3 -> I e1 e3) ->
  (forall r r' e e', I e e' -> R r r' e -> R r r' e') ->
  forall tf e,
    (forall r e0 r' e1, I e e0 -> on_each r e0 = Ret r' e1 ->
       R r r' e1 /\ I e0 e1) ->
    forall tf' e',
      find_and_replace_in_text_frame tf replacements clickable_links e =
        Ret tf' e' ->
      Forall2 (fun r r' => R r r' e') (frame_runs tf) (frame_runs tf') /\
      I e e'.
Proof.
  intros Hrefl Htrans Hstable tf e Hstep tf' e' Hrun%frame_visits.
  eapply (forM_grow on_each R I e); try eassumption; [|apply Hrefl].
  intros r _ e0 r' e1. apply Hstep.
Qed.

(** *** The whole document *)

Lemma replace_placeholders_in_ppt_open (input_file : string) (e : Env) :
  replace_placeholders_in_ppt input_file replacements clickable_links e =
  match packages e input_file with
  | Some prs => (ss ← on_slides (slides prs); ret (mkPresentation ss)) e
  | None => Exc (PackageNotFoundError input_file) e
  end.
Proof.
  unfold replace_placeholders_in_ppt, open_presentation, bind, ret.
  by destruct (packages e input_file).
Qed.

Lemma fillable_spec (prs : Presentation) :
  fillable replacements prs = true <->
  (forall slide shape, slide ∈ slides prs -> shape ∈ slide_shapes slide ->
     answers shape = true) /\
  (forall r, r ∈ presentation_runs prs -> writable replacements r = true).
Proof.
  unfold fillable, answering. rewrite andb_true_iff, !forallb_forall.
  split; intros [Hans Hw]; split.
  - intros slide shape Hslide%list_elem_of_In Hshape%list_elem_of_In.
    specialize (Hans slide Hslide). rewrite forallb_forall in Hans.
    by apply Hans.
  - intros r Hr%list_elem_of_In. by apply Hw.
  - intros slide Hslide%list_elem_of_In. apply forallb_forall.
    intros shape Hshape%list_elem_of_In. by eapply Hans.
  - intros r Hr%list_elem_of_In. by apply Hw.
Qed.

Lemma slides_total (prs : Presentation) (e : Env) :
  fillable replacements prs = true ->
  exists ss e', on_slides (slides prs) e = Ret ss e'.
Proof.
  intros [Hans Hw]%fillable_spec. apply forM_total. intros slide Hslide e0.
  match goal with
  | |- exists y e', bind (forM ?F _) _ _ = _ =>
      destruct (forM_total F (slide_shapes slide)) with (e := e0)
        as (shs & e1 & H); [|step H]
  end.
  intros shape Hshape e2. apply shape_total; [by eapply Hans|].
  intros r Hr. apply Hw. unfold presentation_runs.
  eapply elem_of_flat_map; [|exact Hslide]. by eapply elem_of_flat_map.
Qed.

Lemma slides_fillable (prs : Presentation) (ss : list Slide) (e e' : Env) :
  on_slides (slides prs) e = Ret ss e' -> fillable replacements prs = true.
Proof.
  intros Hss. apply fillable_spec. split.
  - intros slide shape Hslide Hshape.
    destruct (forM_Ret_all _ _ _ _ _ Hss slide Hslide)
      as (e1 & slide' & e2 & (shs & e3 & Hshs & _)%bind_Ret).
    destruct (forM_Ret_all _ _ _ _ _ Hshs shape Hshape) as (e4 & s' & e5 & H).
    by eapply shape_answers.
  - eapply runs_writable. by apply slides_visits.
Qed.

(** Once the package is open, the fill returns exactly on a document that
    is fillable. *)
Lemma fill_returns (input_file : string) (e : Env) (prs : Presentation) :
  packages e input_file = Some prs ->
  (exists prs' e',
     replace_placeholders_in_ppt input_file replacements clickable_links e =
       Ret prs' e') <->
  fillable replacements prs = true.
Proof.
  intros Hopen. rewrite replace_placeholders_in_ppt_open, Hopen. split.
  - intros (prs' & e' & (ss & e1 & Hss & _)%bind_Ret).
    by eapply slides_fillable.
  - intros Hfill. destruct (slides_total prs e Hfill) as (ss & e' & H).
    step H.
Qed.

(** A property of the replacer on one run holds on every run of the
    document that the fill returns. *)
Lemma presentation_grow (R : Run -> Run -> Env -> Prop)
    (I : Env -> Env -> Prop) :
  (forall e, I e e) ->
  (forall e1 e2 e3, I e1 e2 -> I e2 e3 -> I e1 e3) ->
  (forall r r' e e', I e e' -> R r r' e -> R r r' e') ->
  forall input_file e prs,
    packages e input_file = Some prs ->
    (forall r e0 r' e1, I e e0 -> on_each r e0 = Ret r' e1 ->
       R r r' e1 /\ I e0 e1) ->
    forall prs' e',
      replace_placeholders_in_ppt input_file replacements clickable_links e =
        Ret prs' e' ->
      Forall2 (fun r r' => R r r' e')
              (presentation_runs prs) (presentation_runs prs') /\
      I e e'.
Proof.
  intros Hrefl Htrans Hstable input_file e prs Hopen Hstep prs' e'.
  rewrite replace_placeholders_in_ppt_open, Hopen.
  intros (ss & e1 & Hss%slides_visits & [-> ->]%ret_Ret)%bind_Ret.
  eapply (forM_grow on_each R I e); try eassumption; [|apply Hrefl].
  intros r _ e0 r' e2. apply Hstep.
Qed.

Lemma presentation_rel (P : Run -> Run -> Prop) (I : Env -> Env -> Prop) :
  (forall e, I e e) ->
  (forall e1 e2 e3, I e1 e2 -> I e2 e3 -> I e1 e3) ->
  (forall r e r' e', on_each r e = Ret r' e' -> P r r' /\ I e e') ->
  forall input_file e prs prs' e',
    packages e input_file = Some prs ->
    replace_placeholders_in_ppt input_file replacements clickable_links e =
      Ret prs' e' ->
    Forall2 P (presentation_runs prs) (presentation_runs prs') /\ I e e'.
Proof.
  intros Hrefl Htrans Hstep input_file e prs prs' e' Hopen Hrun.
  eapply (presentation_grow (fun r r' _ => P r r') I); try eassumption.
  - done.
  - intros r e0 r' e1 _. apply Hstep.
Qed.

End Walk.

(** ** Two fills that agree on every run agree *)

Section Agree.
Variables replacements1 replacements2 : list (string * string).
Variables clickable_links1 clickable_links2 : option (gmap string string).

Local Abbreviation agree r :=
  (forall e,
     replace_in_run replacements1 (default ∅ clickable_links1) r e =
     replace_in_run replacements2 (default ∅ clickable_links2) r e).

Lemma frame_ext (tf : TextFrame) :
  (forall r, r ∈ frame_runs tf -> agree r) ->
  forall e,
    find_and_replace_in_text_frame tf replacements1 clickable_links1 e =
    find_and_replace_in_text_frame tf replacements2 clickable_links2 e.
Proof.
  intros H e. unfold find_and_replace_in_text_frame.
  apply bind_ext, forM_ext. intros p Hp e1.
  apply bind_ext, forM_ext. intros r Hr e2.
  apply H. by eapply elem_of_flat_map.
Qed.

Lemma shape_ext (shape : Shape) :
  (forall r, r ∈ shape_runs shape -> agree r) ->
  forall e,
    find_and_replace_in_shape shape replacements1 clickable_links1 e =
    find_and_replace_in_shape shape replacements2 clickable_links2 e.
Proof.
  induction shape as [tf tbl|tf tbl|tf tbl subs IH] using Shape_ind';
    simpl; intros H e;
    destruct tf as [|tf|], tbl as [|tbl|]; simpl in *;
    try reflexivity;
    try (by apply bind_ext, frame_ext);
    try (apply bind_ext, forM_ext; intros row Hrow e1;
         apply bind_ext, forM_ext; intros cell Hcell e2;
         apply bind_ext, frame_ext; intros r Hr; apply H;
         unfold table_runs;
         eapply elem_of_flat_map; [|exact Hrow];
         by eapply elem_of_flat_map).
  apply bind_ext, forM_ext. intros sub Hsub e1.
  rewrite Forall_forall in IH. apply IH; [assumption|].
  intros r Hr. apply H. by eapply elem_of_flat_map.
Qed.

Lemma presentation_ext (input_file : string) (e : Env) :
  (forall prs, packages e input_file = Some prs ->
     forall r, r ∈ presentation_runs prs -> agree r) ->
  replace_placeholders_in_ppt input_file replacements1 clickable_links1 e =
  replace_placeholders_in_ppt input_file replacements2 clickable_links2 e.
Proof.
  intros H. rewrite !replace_placeholders_in_ppt_open.
  destruct (packages e input_file) as [prs|]; [|reflexivity].
  apply bind_ext, forM_ext. intros slide Hslide e1.
  apply bind_ext, forM_ext. intros shape Hshape e2.
  apply shape_ext. intros r Hr. apply (H prs eq_refl).
  unfold presentation_runs.
  eapply elem_of_flat_map; [|exact Hslide].
  by eapply elem_of_flat_map.
Qed.

End Agree.

(** ** The empty mapping *)

Lemma frame_nil (tf : TextFrame) (clickable_links : option (gmap string string))
    (e : Env) :
  find_and_replace_in_text_frame tf [] clickable_links e = Ret tf e.
Proof.
  unfold find_and_replace_in_text_frame.
  erewrite bind_step; [|apply forM_id with (xs := paragraphs tf)].
  - by destruct tf.
  - intros p _ e1.
    erewrite bind_step; [|apply forM_id with (xs := runs p); by intros].
    by destruct p.
Qed.

Lemma shape_nil (shape : Shape) (clickable_links : option (gmap string string)) :
  answers shape = true ->
  forall e, find_and_replace_in_shape shape [] clickable_links e = Ret shape e.
Proof.
  induction shape as [tf tbl|tf tbl|tf tbl subs IH] using Shape_ind';
    intros Hans e; simpl in *;
    destruct tf as [|tf|], tbl as [|tbl|]; simpl in *;
    try discriminate; try reflexivity;
    try (erewrite bind_step; [reflexivity | apply frame_nil]);
    try (destruct tbl as [rs];
         erewrite bind_step; [reflexivity|];
         apply forM_id; intros [cs] _ e1;
         erewrite bind_step; [reflexivity|];
         apply forM_id; intros [tf] _ e2;
         erewrite bind_step; [reflexivity | apply frame_nil]).
  erewrite bind_step; [reflexivity|].
  apply forM_id. intros sub Hsub e1.
  rewrite Forall_forall in IH. apply IH; [assumption|].
  rewrite forallb_forall in Hans. by apply Hans, list_elem_of_In.
Qed.

(** ** The structure of the document *)

Section Hollow.
Variable replacements : list (string * string).
Variable clickable_links : option (gmap string string).





End Hollow.

(** ** What the fill raises *)



Section Raises.
Variable replacements : list (string * string).
Variable clickable_links : option (gmap string string).




End Raises.

(** ** Runs that are made links *)



Lemma forallb_elem_of {A} (f : A -> bool) (l : list A) :
  forallb f l = true -> forall x, x ∈ l -> f x = true.
Proof. rewrite forallb_forall. intros H x Hx. by apply H, list_elem_of_In. Qed.

Lemma clean_append (s1 s2 : string) :
  Xml.clean (s1 ++ s2) = Xml.clean s1 && Xml.clean s2.
Proof.
  induction s1 as [|c s1 IH]; [reflexivity|].
  cbn [String.append Xml.clean]. by rewrite IH, andb_assoc.
Qed.


Lemma escape_join (k : string) (parts : list string) :
  Xml.escape (Str.join k parts) =
    Str.join (Xml.escape k) (map Xml.escape parts).
Proof.
  induction parts as [|p [|q rest] IH]; [reflexivity | reflexivity |].
  change (Str.join k (p :: q :: rest)) with (p ++ k ++ Str.join k (q :: rest)).
  rewrite !escape_append, IH. reflexivity.
Qed.

(** * The claims *)

(** C1: a run holding two placeholders of the mapping should end with both
    replaced.  The code does not do so: every item replaces in the text
    the run had before the loop, so the last matching item undoes the
    others.  On the run ["{{a}} and {{b}}"] with [{{a}}] mapped to [X] and
    [{{b}}] to [Y] the result is ["{{a}} and Y"], and ["X and {{b}}"] when
    the keys come in the other order. *)
Theorem two_placeholders_last_one_wins :
  find_and_replace_in_text_frame
    (Sample.frame (Sample.plain "{{a}} and {{b}}"))
    [("{{a}}", "X"); ("{{b}}", "Y")] None Sample.quiet =
    Ret (Sample.frame (mkRun 1 "{{a}} and Y" (Some Sample.touched)))
        Sample.quiet /\
  find_and_replace_in_text_frame
    (Sample.frame (Sample.plain "{{a}} and {{b}}"))
    [("{{b}}", "Y"); ("{{a}}", "X")] None Sample.quiet =
    Ret (Sample.frame (mkRun 1 "X and {{b}}" (Some Sample.touched)))
        Sample.quiet.
Proof. split; vm_compute; reflexivity. Qed.






(** C3, as stated, fails: the run does not hold the mapped value as it
    is when the value has a control character, which the library writes
    escaped.  A value ending with a carriage return ends with [_x000D_]
    in the run. *)
Lemma control_character_is_escaped :
  ~ (forall tf replacements clickable_links e tf' e' i run run' k v pre post,
       find_and_replace_in_text_frame tf replacements clickable_links e =
         Ret tf' e' ->
       frame_runs tf !! i = Some run ->
       frame_runs tf' !! i = Some run' ->
       text run = pre ++ k ++ post ->
       Str.find k (text run) = Some (String.length pre) ->
       Str.contains k post = false ->
       (k, v) ∈ replacements ->
       (forall item, item ∈ replacements ->
          Str.contains item.1 (text run) = true -> item = (k, v)) ->
       text run' = pre ++ v ++ post).
Proof.
  intros H.
  assert (find_and_replace_in_text_frame
            (Sample.frame (Sample.plain "Dear {{client_name}},"))
            [("{{client_name}}", "Ada" ++ Sample.CR)] None Sample.quiet =
          Ret (Sample.frame (mkRun 1 "Dear Ada_x000D_," (Some Sample.touched)))
              Sample.quiet) as Hrun
    by (vm_compute; reflexivity).
  specialize (H _ _ _ _ _ _ 0 (Sample.plain "Dear {{client_name}},") _
                "{{client_name}}" ("Ada" ++ Sample.CR) "Dear " ","
                Hrun eq_refl eq_refl eq_refl).
  discriminate H.
  - vm_compute. reflexivity.
  - vm_compute. reflexivity.
  - apply list_elem_of_here.
  - by intros item ->%list_elem_of_singleton.
Qed.

(** C3, amended: in a run whose text is [pre ++ k ++ post], where this is
    the only occurrence of the placeholder [k] and [k] is the only key of
    the mapping found in the run, the replacer changes the placeholder
    into its value and leaves what is before and after, and the run holds
    the result as the library writes it: control characters other than
    tab and line feed escaped as [_xHHHH_].  A text without such
    characters is kept byte for byte.  (The replacer returns on the
    frame when every text it writes is one the library takes.) *)
Theorem placeholder_replaced_in_place (tf : TextFrame)
    (replacements : list (string * string))
    (clickable_links : option (gmap string string)) (e : Env)
    (i : nat) (run : Run) (k v pre post : string) :
  frame_runs tf !! i = Some run ->
  forallb (writable replacements) (frame_runs tf) = true ->
  text run = pre ++ k ++ post ->
  Str.find k (text run) = Some (String.length pre) ->
  Str.contains k post = false ->
  (k, v) ∈ replacements ->
  (forall item, item ∈ replacements ->
     Str.contains item.1 (text run) = true -> item = (k, v)) ->
  exists tf' e' run',
    find_and_replace_in_text_frame tf replacements clickable_links e =
      Ret tf' e' /\
    frame_runs tf' !! i = Some run' /\
    text run' = Xml.escape pre ++ Xml.escape v ++ Xml.escape post /\
    (Xml.clean pre = true -> Xml.clean post = true ->
     text run' = pre ++ Xml.escape v ++ post) /\
    (Xml.clean (pre ++ v ++ post) = true -> text run' = pre ++ v ++ post).
Proof.
  intros Hi Hw Htext Hfind Hpost Hkv Honly.
  destruct (frame_total replacements clickable_links tf e
              (forallb_elem_of _ _ Hw)) as (tf' & e' & Hrun).
  destruct (frame_rel replacements clickable_links
    (fun r r' => text r' = text_after replacements (text r) (text r))
    (fun _ _ => True)) with (tf := tf) (e := e) (tf' := tf') (e' := e')
    as [Hall _]; try done.
  { by intros r e0 r' e1 (? & _)%replace_in_run_inv. }
  destruct (Forall2_lookup_l _ _ _ _ _ Hall Hi) as (run' & Hi' & Hafter).
  exists tf', e', run'. split; [exact Hrun|]. split; [exact Hi'|].
  assert (k <> "") as Hne by (intros ->; by rewrite contains_nil in Hpost).
  assert (text run' = Xml.escape pre ++ Xml.escape v ++ Xml.escape post)
    as Hescaped.
  { rewrite Hafter, (text_after_only k v); [| assumption | | by left].
    - unfold stored. rewrite replace_nonempty, Htext by assumption.
      rewrite replace_scan_first; [|assumption|by rewrite <- Htext].
      by rewrite replace_scan_absent, !escape_append.
    - rewrite Htext. apply contains_append_r, contains_prefix, prefix_append. }
  split; [exact Hescaped|]. split.
  - intros Hpre Hpst.
    by rewrite Hescaped, (escape_clean pre), (escape_clean post).
  - rewrite !clean_append, !andb_true_iff. intros (Hpre & Hv & Hpst).
    by rewrite Hescaped, (escape_clean pre), (escape_clean v),
      (escape_clean post).
Qed.

Lemma placeholder_replaced_in_place_witness :
  exists tf' e' run',
    find_and_replace_in_text_frame
      (Sample.frame (Sample.plain "Price: {{final_price}} due"))
      Sample.items None Sample.quiet = Ret tf' e' /\
    frame_runs tf' !! 0 = Some run' /\
    text run' = "Price: " ++ "$500" ++ " due".
Proof.
  destruct (placeholder_replaced_in_place
              (Sample.frame (Sample.plain "Price: {{final_price}} due"))
              Sample.items None Sample.quiet 0
              (Sample.plain "Price: {{final_price}} due")
              "{{final_price}}" "$500" "Price: " " due")
    as (tf' & e' & run' & Hrun & Hi & _ & _ & Htext).
  - reflexivity.
  - reflexivity.
  - reflexivity.
  - vm_compute. reflexivity.
  - vm_compute. reflexivity.
  - apply list_elem_of_further, list_elem_of_here.
  - intros item [->|[->|[]%elem_of_nil]%elem_of_cons]%elem_of_cons;
      [vm_compute; discriminate | reflexivity].
  - exists tf', e', run'. split; [exact Hrun|]. split; [exact Hi|].
    by apply Htext.
Defined.

(** C4: unmatched keys are ignored both ways.  A key found in no run of
    the document changes nothing and brings no error of its own: the fill
    does, and raises, what it does without the key.  A placeholder token
    of the document (without control characters) that is not a key of the
    mapping is still in the text of its run after the fill, which returns
    on a document that is fillable. *)
Theorem unmatched_keys_ignored (input_file : string) (prs : Presentation)
    (before after replacements : list (string * string))
    (k v : string) (clickable_links : option (gmap string string)) (e : Env) :
  packages e input_file = Some prs ->
  ((forall r, r ∈ presentation_runs prs -> Str.contains k (text r) = false) ->
   replace_placeholders_in_ppt input_file (before ++ (k, v) :: after)
     clickable_links e =
   replace_placeholders_in_ppt input_file (before ++ after) clickable_links e) /\
  (forall t,
     is_placeholder t = true ->
     Xml.clean t = true ->
     (forall item, item ∈ replacements ->
        is_placeholder item.1 = true /\ item.1 <> t) ->
     fillable replacements prs = true ->
     exists prs' e',
       replace_placeholders_in_ppt input_file replacements clickable_links e =
         Ret prs' e' /\
       Forall2 (fun r r' => Str.contains t (text r) = true ->
                            Str.contains t (text r') = true)
               (presentation_runs prs) (presentation_runs prs')).
Proof.
  intros Hopen. split.
  - intros Habsent.
    apply presentation_ext. intros prs0 Hprs0 r Hr e0.
    rewrite Hopen in Hprs0. injection Hprs0 as <-.
    unfold replace_in_run. apply foldM_skip.
    intros a e1. apply replace_item_absent. by apply Habsent.
  - intros t Ht Hclean Hkeys Hfill.
    destruct (proj2 (fill_returns replacements clickable_links
                       input_file e prs Hopen) Hfill) as (prs' & e' & Hrun).
    exists prs', e'. split; [exact Hrun|].
    eapply (presentation_rel replacements clickable_links _ (fun _ _ => True));
      try eassumption; try done.
    intros r e0 r' e1 (Htext & _)%replace_in_run_inv. split; [|done].
    intros Hin. rewrite Htext. by apply text_after_keeps.
Qed.

Lemma unmatched_keys_ignored_witness :
  (replace_placeholders_in_ppt "input.pptx"
     ([("{{client_name}}", "Ada")] ++
      ("{{unused_field}}", "n/a") :: [("{{final_price}}", "$500")])
     None Sample.disk =
   replace_placeholders_in_ppt "input.pptx"
     ([("{{client_name}}", "Ada")] ++ [("{{final_price}}", "$500")])
     None Sample.disk) /\
  exists prs' e',
    replace_placeholders_in_ppt "input.pptx" Sample.items None Sample.disk =
      Ret prs' e' /\
    Forall2 (fun r r' => Str.contains "{{unused_token}}" (text r) = true ->
                         Str.contains "{{unused_token}}" (text r') = true)
            (presentation_runs Sample.deck) (presentation_runs prs').
Proof.
  destruct (unmatched_keys_ignored "input.pptx" Sample.deck
              [("{{client_name}}", "Ada")] [("{{final_price}}", "$500")]
              Sample.items "{{unused_field}}" "n/a" None Sample.disk eq_refl)
    as [Hkey Htoken].
  split.
  - apply Hkey. intros r Hr. apply list_elem_of_In in Hr.
    vm_compute in Hr. intuition (subst; reflexivity).
  - apply Htoken; [reflexivity | reflexivity | | reflexivity].
    intros item [->|[->|[]%elem_of_nil]%elem_of_cons]%elem_of_cons;
      (split; [reflexivity | discriminate]).
Defined.




(** C6: the injector never raises and returns a boolean.  It returns
    [True] exactly when no call of its [try] block fails, and then the run
    carries one more hyperlink, which names a relationship of its part to
    the URL, and it is blue and underlined.  When a call fails
    (registering the relationship or building the markup, say) it returns
    [False], and the run is still made blue and underlined as far as
    these two last calls succeed. *)
Theorem add_hyperlink_to_run_never_raises (url : string) (run : Run) (e : Env) :
  exists (b : bool) run' e',
    add_hyperlink_to_run url (run, e) = Ret b (run', e') /\
    (b = true <->
     forall s, s ∈ try_sites run -> raises e (injections e) s = false) /\
    (b = true ->
     (exists rId,
        Font.hlinkClick (font run') =
          (Font.hlinkClick (font run) ++ [rId])%list /\
        target e' (part run') rId = Some url) /\
     Font.fill (font run') = SolidFill (Some (RGB (mkRGB 0 0 255))) /\
     Font.underline (font run') = Some true) /\
    (b = false ->
     raises e (injections e) at_fallback_color = false ->
     Font.fill (font run') = SolidFill (Some (RGB (mkRGB 0 0 255))) /\
     (raises e (injections e) at_fallback_underline = false ->
      Font.underline (font run') = Some true)).
Proof.
  destruct (add_hyperlink_to_run_effects url run e)
    as (run' & e' & Hrun & Hpart & _ & _ & _ & _ & _ & Hrels & Hlinks & Hreg &
        Hok & Hfail).
  exists (try_succeeds e (injections e) run), run', e'.
  split; [exact Hrun|]. split; [|split; [|exact Hfail]].
  - unfold try_succeeds. rewrite forallb_forall. split.
    + intros H s Hs. apply negb_true_iff, H. by apply list_elem_of_In.
    + intros H s Hs. apply negb_true_iff, H. by apply list_elem_of_In.
  - intros Hb. destruct (Hok Hb) as (Hatt & Hfill & Hul).
    split; [|by split].
    exists (rId_for e (part run) url). rewrite Hlinks, Hatt.
    split; [reflexivity|].
    rewrite (Hreg Hatt) in Hrels. rewrite Hpart.
    by apply rels_with_spec in Hrels as [_ ?].
Qed.



(** C8: with an empty mapping the fill gives back the loaded template as
    it is, when it gives a document back: every run has the text and the
    formatting it had, and nothing is registered.  It does so on every
    template whose probes answer. *)
Theorem empty_mapping_changes_nothing (input_file : string)
    (clickable_links : option (gmap string string)) (e : Env)
    (prs : Presentation) :
  packages e input_file = Some prs ->
  (answering prs = true ->
   replace_placeholders_in_ppt input_file [] clickable_links e = Ret prs e) /\
  (forall prs' e',
     replace_placeholders_in_ppt input_file [] clickable_links e =
       Ret prs' e' ->
     prs' = prs /\ e' = e).
Proof.
  intros Hopen.
  assert (answering prs = true ->
    replace_placeholders_in_ppt input_file [] clickable_links e = Ret prs e)
    as Hsame.
  { intros Hans. rewrite replace_placeholders_in_ppt_open, Hopen.
    unfold answering in Hans.
    erewrite bind_step; [|apply forM_id with (xs := slides prs)].
    - by destruct prs.
    - intros [shs] Hslide e1.
      erewrite bind_step; [reflexivity|].
      apply forM_id. intros shape Hshape e2. apply shape_nil.
      apply (forallb_elem_of _ _ (forallb_elem_of _ _ Hans _ Hslide)).
      exact Hshape. }
  split; [exact Hsame|].
  intros prs' e' Hrun.
  assert (fillable [] prs = true) as [Hans _]%andb_true_iff
    by (apply (fill_returns [] clickable_links input_file e prs Hopen); eauto).
  rewrite (Hsame Hans) in Hrun. by injection Hrun as <- <-.
Qed.

Lemma empty_mapping_changes_nothing_witness :
  replace_placeholders_in_ppt "input.pptx" [] (Some ∅) Sample.disk =
    Ret Sample.deck Sample.disk.
Proof.
  apply (empty_mapping_changes_nothing "input.pptx" (Some ∅) Sample.disk
           Sample.deck eq_refl).
  reflexivity.
Defined.

(** C9: when the placeholder [k] occurs several times in a run, the text
    being [parts] joined by [k], the replacer changes every occurrence:
    the run ends with [parts] joined by the value, as the library writes
    it (control characters escaped), and with that very text when it has
    no such character.  (The replacer returns on the frame when every
    text it writes is one the library takes.) *)
Theorem every_occurrence_replaced (tf : TextFrame)
    (replacements : list (string * string))
    (clickable_links : option (gmap string string)) (e : Env)
    (i : nat) (run : Run) (k v : string) (parts : list string) :
  frame_runs tf !! i = Some run ->
  forallb (writable replacements) (frame_runs tf) = true ->
  k <> "" ->
  1 < length parts ->
  text run = Str.join k parts ->
  Forall (fun p => Str.find k (p ++ k) = Some (String.length p)) parts ->
  (k, v) ∈ replacements ->
  (forall item, item ∈ replacements ->
     Str.contains item.1 (text run) = true -> item = (k, v)) ->
  exists tf' e' run',
    find_and_replace_in_text_frame tf replacements clickable_links e =
      Ret tf' e' /\
    frame_runs tf' !! i = Some run' /\
    text run' = Str.join (Xml.escape v) (map Xml.escape parts) /\
    (Xml.clean (Str.join v parts) = true -> text run' = Str.join v parts).
Proof.
  intros Hi Hw Hne Hlen Htext Hparts Hkv Honly.
  destruct (frame_total replacements clickable_links tf e
              (forallb_elem_of _ _ Hw)) as (tf' & e' & Hrun).
  destruct (frame_rel replacements clickable_links
    (fun r r' => text r' = text_after replacements (text r) (text r))
    (fun _ _ => True)) with (tf := tf) (e := e) (tf' := tf') (e' := e')
    as [Hall _]; try done.
  { by intros r e0 r' e1 (? & _)%replace_in_run_inv. }
  destruct (Forall2_lookup_l _ _ _ _ _ Hall Hi) as (run' & Hi' & Hafter).
  exists tf', e', run'. split; [exact Hrun|]. split; [exact Hi'|].
  assert (text run' = Xml.escape (Str.join v parts)) as Hescaped.
  { rewrite Hafter, (text_after_only k v); [| assumption | | by left].
    - unfold stored. rewrite replace_nonempty, Htext by assumption.
      by rewrite replace_scan_join.
    - rewrite Htext. destruct parts as [|p [|q rest]]; simpl in Hlen; try lia.
      change (Str.join k (p :: q :: rest))
        with (p ++ k ++ Str.join k (q :: rest)).
      apply contains_append_r, contains_prefix, prefix_append. }
  split; [by rewrite Hescaped, escape_join|].
  intros Hclean. by rewrite Hescaped, escape_clean.
Qed.

Lemma every_occurrence_replaced_witness :
  exists tf' e' run',
    find_and_replace_in_text_frame
      (Sample.frame (Sample.plain "{{client_name}}, dear {{client_name}}!"))
      Sample.items None Sample.quiet = Ret tf' e' /\
    frame_runs tf' !! 0 = Some run' /\
    text run' = "Ada, dear Ada!".
Proof.
  destruct (every_occurrence_replaced
              (Sample.frame
                 (Sample.plain "{{client_name}}, dear {{client_name}}!"))
              Sample.items None Sample.quiet 0
              (Sample.plain "{{client_name}}, dear {{client_name}}!")
              "{{client_name}}" "Ada" [""; ", dear "; "!"])
    as (tf' & e' & run' & Hrun & Hi & _ & Htext).
  - reflexivity.
  - reflexivity.
  - discriminate.
  - simpl. lia.
  - reflexivity.
  - repeat constructor.
  - apply list_elem_of_here.
  - intros item [->|[->|[]%elem_of_nil]%elem_of_cons]%elem_of_cons;
      [reflexivity | vm_compute; discriminate].
  - exists tf', e', run'. split; [exact Hrun|]. split; [exact Hi|].
    by apply Htext.
Defined.

(** C10: leaving the clickable links out is the same as passing no link:
    the frame replacer and the shape walk do the same with [None] and with
    the empty dictionary.  Where they return (on writable runs and probes
    that answer), no run gets a hyperlink or the styling of one: the
    character formatting of a run is what it was, but for the fill of a
    replaced run, which reading its colour has made solid; and no
    relationship is registered. *)
Theorem no_links_is_empty_links (tf : TextFrame) (shape : Shape)
    (replacements : list (string * string)) (e : Env) :
  find_and_replace_in_text_frame tf replacements None e =
    find_and_replace_in_text_frame tf replacements (Some ∅) e /\
  find_and_replace_in_shape shape replacements None e =
    find_and_replace_in_shape shape replacements (Some ∅) e /\
  (forallb (writable replacements) (frame_runs tf) = true ->
   exists tf',
     find_and_replace_in_text_frame tf replacements None e = Ret tf' e /\
     Forall2 (fun r r' =>
                font r' = if found replacements (text r)
                          then Font.read_color (font r) else font r)
             (frame_runs tf) (frame_runs tf')) /\
  (answers shape = true ->
   forallb (writable replacements) (shape_runs shape) = true ->
   exists shape',
     find_and_replace_in_shape shape replacements None e = Ret shape' e /\
     Forall2 (fun r r' =>
                font r' = if found replacements (text r)
                          then Font.read_color (font r) else font r)
             (shape_runs shape) (shape_runs shape')).
Proof.
  assert (forall r e0 r' e1,
    replace_in_run replacements (default ∅ None) r e0 = Ret r' e1 ->
    font r' = (if found replacements (text r)
               then Font.read_color (font r) else font r) /\ e0 = e1) as Hstep.
  { intros r e0 r' e1 (_ & _ & _ & _ & _ & _ & Hfont)%replace_in_run_inv.
    destruct Hfont as [Hf ->]; [intros; apply lookup_empty | done]. }
  split; [reflexivity|]. split; [by apply shape_ext|]. split.
  - intros Hw.
    destruct (frame_total replacements None tf e (forallb_elem_of _ _ Hw))
      as (tf' & e' & Hrun).
    destruct (frame_rel replacements None
      (fun r r' => font r' = if found replacements (text r)
                             then Font.read_color (font r) else font r) eq) with (tf := tf) (e := e)
      (tf' := tf') (e' := e') as [Hall <-]; try done; [congruence|].
    eauto.
  - intros Hans Hw.
    destruct (shape_total replacements None shape Hans
                (forallb_elem_of _ _ Hw) e) as (shape' & e' & Hrun).
    destruct (shape_rel replacements None
      (fun r r' => font r' = if found replacements (text r)
                             then Font.read_color (font r) else font r) eq) with (shape := shape) (e := e)
      (shape' := shape') (e' := e') as [Hall <-]; try done; [congruence|].
    eauto.
Qed.

(** * Further properties *)

(** ** Lemmas on the relationships and the hyperlinks of a run *)

Lemma replace_item_links (original_text : string)
    (clickable_links : gmap string string) (run run' : Run)
    (item : string * string) (e e' : Env) :
  replace_item original_text clickable_links run item e = Ret run' e' ->
  rels_grow e e' /\ part run' = part run /\
  (forall rId, rId ∈ Font.hlinkClick (font run') ->
     rId ∈ Font.hlinkClick (font run) \/
     exists url, Str.contains item.1 original_text = true /\
                 clickable_links !! item.1 = Some url /\
                 target e' (part run) rId = Some url).
Proof.
  intros [(_ & -> & ->)|(Hin & _ & Hcase)]%replace_item_inv.
  - split; [apply rels_grow_refl|]. split; [reflexivity | by left].
  - simpl in Hcase. destruct (clickable_links !! item.1) as [url|].
    + destruct Hcase as [b Hlink].
      destruct (add_hyperlink_to_run_inv _ _ _ _ _ _ Hlink) as (Hpart & _).
      apply add_hyperlink_to_run_links in Hlink as [Hgrow Hids].
      split; [exact Hgrow|]. split; [exact Hpart|]. intros rId HrId.
      destruct (Hids rId HrId) as [H|H]; [by left|].
      right. by exists url.
    + destruct Hcase as [-> ->].
      split; [apply rels_grow_refl|]. split; [reflexivity | by left].
Qed.

Lemma replace_in_run_links (replacements : list (string * string))
    (clickable_links : gmap string string) (run run' : Run) (e e' : Env) :
  replace_in_run replacements clickable_links run e = Ret run' e' ->
  rels_grow e e' /\
  (forall rId, rId ∈ Font.hlinkClick (font run') ->
     rId ∈ Font.hlinkClick (font run) \/
     exists item url,
       item ∈ replacements /\
       Str.contains item.1 (text run) = true /\
       clickable_links !! item.1 = Some url /\
       target e' (part run) rId = Some url).
Proof.
  unfold replace_in_run. generalize (text run) as original_text.
  intros original_text. revert run e.
  induction replacements as [|item rest IH]; intros run e.
  - intros [-> ->]%ret_Ret. split; [apply rels_grow_refl | by left].
  - simpl. intros (r1 & e1 & Hstep & Hrest)%bind_Ret.
    apply replace_item_links in Hstep as (Hgrow1 & Hpart & Hids1).
    apply IH in Hrest as [Hgrow2 Hids2]. rewrite Hpart in Hids2.
    split; [by eapply rels_grow_trans|]. intros rId HrId.
    destruct (Hids2 rId HrId) as [H|(i & url & Hi & Hin & Hurl & Htarget)].
    + destruct (Hids1 rId H) as [H1|(url & Hin & Hurl & Htarget)];
        [by left|].
      right. exists item, url. split; [apply list_elem_of_here|].
      repeat split; try assumption. by eapply target_grows.
    + right. exists i, url. split; [by apply list_elem_of_further|].
      by repeat split.
Qed.

(** ** The fill and the injector *)



(** X2: a run in whose text no key of the mapping is found comes back as
    it is, text and formatting, whatever is replaced in the other runs of
    the frame (which have to be writable, for the replacer to return).
    So a placeholder cut in two by a run boundary is not replaced. *)
Theorem run_without_key_untouched (tf : TextFrame)
    (replacements : list (string * string))
    (clickable_links : option (gmap string string)) (e : Env)
    (i : nat) (run : Run) :
  frame_runs tf !! i = Some run ->
  forallb (writable replacements) (frame_runs tf) = true ->
  (forall item, item ∈ replacements ->
     Str.contains item.1 (text run) = false) ->
  exists tf' e',
    find_and_replace_in_text_frame tf replacements clickable_links e =
      Ret tf' e' /\
    frame_runs tf' !! i = Some run.
Proof.
  intros Hi Hw Habsent.
  destruct (frame_total replacements clickable_links tf e
              (forallb_elem_of _ _ Hw)) as (tf' & e' & Hrun).
  destruct (frame_rel replacements clickable_links
    (fun r r' =>
       (forall item, item ∈ replacements ->
          Str.contains item.1 (text r) = false) -> r' = r)
    (fun _ _ => True)) with (tf := tf) (e := e) (tf' := tf') (e' := e')
    as [Hall _]; try done.
  { intros r e0 r' e1 Hr. split; [|done]. intros H.
    rewrite replace_in_run_absent in Hr by assumption.
    by injection Hr as <- _. }
  destruct (Forall2_lookup_l _ _ _ _ _ Hall Hi) as (run' & Hi' & Hsame).
  exists tf', e'. split; [exact Hrun|]. by rewrite Hi', (Hsame Habsent).
Qed.

Lemma run_without_key_untouched_witness :
  exists tf' e',
    find_and_replace_in_text_frame Case.split_frame Sample.items None
      Sample.quiet = Ret tf' e' /\
    frame_runs tf' !! 1 = Some (Sample.plain "name}},").
Proof.
  apply (run_without_key_untouched Case.split_frame Sample.items None
           Sample.quiet 1 (Sample.plain "name}},")).
  - reflexivity.
  - reflexivity.
  - intros item [->|[->|[]%elem_of_nil]%elem_of_cons]%elem_of_cons;
      vm_compute; reflexivity.
Defined.

(** X3: the clickable links are read at the keys of the mapping and
    nowhere else: two dictionaries of links that agree on the keys of the
    mapping give the same fill.  A link whose key is not in the mapping
    has no effect. *)
Theorem links_read_at_mapping_keys (input_file : string)
    (replacements : list (string * string))
    (links1 links2 : gmap string string) (e : Env) :
  (forall item, item ∈ replacements -> links1 !! item.1 = links2 !! item.1) ->
  replace_placeholders_in_ppt input_file replacements (Some links1) e =
  replace_placeholders_in_ppt input_file replacements (Some links2) e.
Proof.
  intros Hagree. apply presentation_ext. intros prs _ r _ e0.
  unfold replace_in_run. apply foldM_ext. intros item Hitem a e1.
  rewrite !replace_item_eq. simpl. by rewrite (Hagree item Hitem).
Qed.

Lemma links_read_at_mapping_keys_witness :
  replace_placeholders_in_ppt "input.pptx" Sample.items
    (Some Case.links) Sample.disk =
  replace_placeholders_in_ppt "input.pptx" Sample.items
    (Some Case.more_links) Sample.disk.
Proof.
  apply (links_read_at_mapping_keys "input.pptx" Sample.items
           Case.links Case.more_links Sample.disk).
  intros item [->|[->|[]%elem_of_nil]%elem_of_cons]%elem_of_cons;
    vm_compute; reflexivity.
Defined.

(** X4: the text, font name, size, bold and italic of every run after the
    fill do not depend on the clickable links nor on which library calls
    of the injector fail: two fills of the same fillable template with
    the same mapping both return, and agree on them. *)
Theorem text_independent_of_links (input_file : string)
    (replacements : list (string * string))
    (links1 links2 : option (gmap string string)) (e1 e2 : Env)
    (prs : Presentation) :
  packages e1 input_file = Some prs ->
  packages e2 input_file = Some prs ->
  fillable replacements prs = true ->
  exists prs1 e1' prs2 e2',
    replace_placeholders_in_ppt input_file replacements links1 e1 =
      Ret prs1 e1' /\
    replace_placeholders_in_ppt input_file replacements links2 e2 =
      Ret prs2 e2' /\
    Forall2 (fun r1 r2 => text r1 = text r2 /\ same_character r1 r2)
            (presentation_runs prs1) (presentation_runs prs2).
Proof.
  intros Hopen1 Hopen2 Hfill.
  set (P := fun r r' : Run =>
    text r' = text_after replacements (text r) (text r) /\
    same_character r r').
  destruct (proj2 (fill_returns replacements links1 input_file e1 prs Hopen1)
              Hfill) as (prs1 & e1' & Hrun1).
  destruct (proj2 (fill_returns replacements links2 input_file e2 prs Hopen2)
              Hfill) as (prs2 & e2' & Hrun2).
  destruct (presentation_rel replacements links1 P (fun _ _ => True))
    with (input_file := input_file) (e := e1) (prs := prs) (prs' := prs1)
         (e' := e1') as [Hall1 _]; try done.
  { intros r e0 r' e3 (? & _ & ? & _)%replace_in_run_inv.
    split; [by split | done]. }
  destruct (presentation_rel replacements links2 P (fun _ _ => True))
    with (input_file := input_file) (e := e2) (prs := prs) (prs' := prs2)
         (e' := e2') as [Hall2 _]; try done.
  { intros r e0 r' e3 (? & _ & ? & _)%replace_in_run_inv.
    split; [by split | done]. }
  exists prs1, e1', prs2, e2'. split; [exact Hrun1|]. split; [exact Hrun2|].
  eapply Forall2_same_source; [|exact Hall1|exact Hall2].
  intros r y z [Hty Hsy] [Htz Hsz]. split; [congruence|].
  unfold same_character in *. intuition congruence.
Qed.

Lemma text_independent_of_links_witness :
  exists prs1 e1' prs2 e2',
    replace_placeholders_in_ppt "input.pptx" Sample.items
      (Some Case.links) Sample.disk = Ret prs1 e1' /\
    replace_placeholders_in_ppt "input.pptx" Sample.items
      None Case.offline = Ret prs2 e2' /\
    Forall2 (fun r1 r2 => text r1 = text r2 /\ same_character r1 r2)
            (presentation_runs prs1) (presentation_runs prs2).
Proof.
  apply (text_independent_of_links "input.pptx" Sample.items
           (Some Case.links) None Sample.disk Case.offline Sample.deck);
    reflexivity.
Defined.

(** X5: no hyperlink is left dangling.  If every hyperlink of the
    template names a relationship of its part, so does every hyperlink of
    the document that the fill returns, whichever library calls fail; and
    what an identifier named in a part before the fill, it still names. *)
Theorem hyperlinks_stay_registered (input_file : string)
    (replacements : list (string * string))
    (clickable_links : option (gmap string string))
    (e : Env) (prs : Presentation) :
  packages e input_file = Some prs ->
  fillable replacements prs = true ->
  Forall (linked e) (presentation_runs prs) ->
  exists prs' e',
    replace_placeholders_in_ppt input_file replacements clickable_links e =
      Ret prs' e' /\
    Forall (linked e') (presentation_runs prs') /\
    (forall p rId rel, named e p rId = Some rel -> named e' p rId = Some rel).
Proof.
  intros Hopen Hfill Hlinked.
  destruct (proj2 (fill_returns replacements clickable_links input_file e prs
                     Hopen) Hfill) as (prs' & e' & Hrun).
  destruct (presentation_grow replacements clickable_links
    (fun r r' e' =>
       part r' = part r /\
       forall rId, rId ∈ Font.hlinkClick (font r') ->
         rId ∈ Font.hlinkClick (font r) \/ is_Some (named e' (part r) rId))
    rels_grow rels_grow_refl rels_grow_trans)
    with (input_file := input_file) (e := e) (prs := prs) (prs' := prs')
         (e' := e') as [Hall Hgrow]; try done.
  { intros r r' e1 e2 Hgrow [Hpart H]. split; [exact Hpart|]. intros rId HrId.
    destruct (H rId HrId) as [?|[rel Hrel]]; [by left|].
    right. exists rel. by eapply named_grows. }
  { intros r e1 r' e2 _ Hr.
    destruct (replace_in_run_inv _ _ _ _ _ _ Hr) as (_ & Hpart & _).
    apply replace_in_run_links in Hr as [Hgrow Hids].
    split; [|exact Hgrow]. split; [exact Hpart|]. intros rId HrId.
    destruct (Hids rId HrId) as [?|(item & url & _ & _ & _ & Hurl)];
      [by left | right].
    unfold target in Hurl. by destruct (named e2 (part r) rId). }
  exists prs', e'. split; [exact Hrun|].
  split; [|intros p rId rel; by apply named_grows].
  clear Hrun. induction Hall as [|r r' rs rs' [Hpart Hr] _ IH]; [constructor|].
  apply Forall_cons in Hlinked as [Hhead Htail].
  constructor; [|by apply IH].
  unfold linked in *. rewrite Forall_forall in Hhead |- *. rewrite Hpart.
  intros rId HrId. destruct (Hr rId HrId) as [Hold|Hnew]; [|exact Hnew].
  destruct (Hhead rId Hold) as [rel Hrel].
  exists rel. by eapply named_grows.
Qed.

Lemma hyperlinks_stay_registered_witness :
  exists prs' e',
    replace_placeholders_in_ppt "input.pptx" Sample.items
      (Some Case.links) Sample.disk = Ret prs' e' /\
    Forall (linked e') (presentation_runs prs') /\
    (forall p rId rel,
       named Sample.disk p rId = Some rel -> named e' p rId = Some rel).
Proof.
  apply (hyperlinks_stay_registered "input.pptx" Sample.items
           (Some Case.links) Sample.disk Sample.deck).
  - reflexivity.
  - reflexivity.
  - repeat constructor.
Defined.

(** X6: what a failing injector leaves behind.  The part has a
    relationship to the URL as soon as [run.part] and [relate_to] return,
    even if a later call fails: the one it had, or a new one after the
    others.  The hyperlink is attached to the run exactly when no call up
    to [rPr.append] fails, and it then names that relationship.  The
    function returns [True] only with the hyperlink attached, but it also
    returns [False] with the hyperlink attached, when it is the styling
    that fails. *)
Theorem add_hyperlink_to_run_partial_effects (url : string) (run : Run)
    (e : Env) :
  exists (b : bool) run' e',
    add_hyperlink_to_run url (run, e) = Ret b (run', e') /\
    rels e' =
      (if relates e (injections e) then rels_with e (part run) url
       else rels e) /\
    (relates e (injections e) = true ->
     target e' (part run) (rId_for e (part run) url) = Some url) /\
    (forall p rId rel, named e p rId = Some rel -> named e' p rId = Some rel) /\
    Font.hlinkClick (font run') =
      (if attaches e (injections e) run
       then Font.hlinkClick (font run) ++ [rId_for e (part run) url]
       else Font.hlinkClick (font run))%list /\
    (attaches e (injections e) run = true -> relates e (injections e) = true) /\
    (b = true -> attaches e (injections e) run = true) /\
    (attaches e (injections e) run = true ->
     raises e (injections e) at_color = true \/
     raises e (injections e) at_underline = true ->
     b = false).
Proof.
  destruct (add_hyperlink_to_run_effects url run e)
    as (run' & e' & Hrun & _ & _ & _ & _ & _ & _ & Hrels & Hlinks & Hreg &
        Hok & _).
  destruct (add_hyperlink_to_run_links _ _ _ _ _ _ Hrun) as [Hgrow _].
  exists (try_succeeds e (injections e) run), run', e'.
  split; [exact Hrun|]. split; [exact Hrels|]. split.
  { intros Hrel. rewrite Hrel in Hrels.
    by apply rels_with_spec in Hrels as [_ ?]. }
  split; [intros p rId rel; by apply named_grows|].
  split; [exact Hlinks|]. split; [exact Hreg|].
  split; [intros Hb; by destruct (Hok Hb)|].
  intros _ Hraise. apply not_true_is_false. intros Htry.
  unfold try_succeeds in Htry. rewrite forallb_forall in Htry.
  assert (forall s, s ∈ [at_color; at_underline] ->
            raises e (injections e) s = false) as Hquiet.
  { intros s Hs. apply negb_true_iff, Htry, list_elem_of_In.
    unfold try_sites. rewrite !elem_of_app. do 2 right.
    by apply list_elem_of_further. }
  destruct Hraise as [H|H];
    rewrite Hquiet in H; try discriminate;
    rewrite !elem_of_cons; tauto.
Qed.

(** X7: succeed or fail, the injector leaves the text of the run, its
    font name, size, bold and italic as they are. *)
Theorem add_hyperlink_to_run_keeps_text (url : string) (run : Run) (e : Env) :
  exists (b : bool) run' e',
    add_hyperlink_to_run url (run, e) = Ret b (run', e') /\
    text run' = text run /\
    Font.name (font run') = Font.name (font run) /\
    Font.size (font run') = Font.size (font run) /\
    Font.bold (font run') = Font.bold (font run) /\
    Font.italic (font run') = Font.italic (font run).
Proof.
  destruct (add_hyperlink_to_run_effects url run e)
    as (run' & e' & Hrun & _ & Htext & Hsame & _).
  by exists (try_succeeds e (injections e) run), run', e'.
Qed.

(** X8: a run gets hyperlinks to the links of its own placeholders only:
    when the replacer returns on a frame, every hyperlink of a run was
    there before, or names a relationship of the part of the run to the
    URL that the clickable links give for a key of the mapping found in
    the text of that run. *)
Theorem hyperlinks_point_to_own_links (tf : TextFrame)
    (replacements : list (string * string))
    (clickable_links : option (gmap string string)) (e : Env)
    (i : nat) (run : Run) :
  frame_runs tf !! i = Some run ->
  forallb (writable replacements) (frame_runs tf) = true ->
  exists tf' e' run',
    find_and_replace_in_text_frame tf replacements clickable_links e =
      Ret tf' e' /\
    frame_runs tf' !! i = Some run' /\
    (forall rId, rId ∈ Font.hlinkClick (font run') ->
       rId ∈ Font.hlinkClick (font run) \/
       exists item url,
         item ∈ replacements /\
         Str.contains item.1 (text run) = true /\
         default ∅ clickable_links !! item.1 = Some url /\
         target e' (part run) rId = Some url).
Proof.
  intros Hi Hw.
  destruct (frame_total replacements clickable_links tf e
              (forallb_elem_of _ _ Hw)) as (tf' & e' & Hrun).
  destruct (frame_grow replacements clickable_links
    (fun r r' e' =>
       forall rId, rId ∈ Font.hlinkClick (font r') ->
         rId ∈ Font.hlinkClick (font r) \/
         exists item url,
           item ∈ replacements /\
           Str.contains item.1 (text r) = true /\
           default ∅ clickable_links !! item.1 = Some url /\
           target e' (part r) rId = Some url)
    rels_grow rels_grow_refl rels_grow_trans)
    with (tf := tf) (e := e) (tf' := tf') (e' := e') as [Hall _]; try done.
  { intros r r' e1 e2 Hgrow H rId HrId.
    destruct (H rId HrId) as [?|(item & url & ? & ? & ? & Hurl)]; [by left|].
    right. exists item, url. repeat split; try assumption.
    by eapply target_grows. }
  { by intros r e1 r' e2 _ [Hgrow Hids]%replace_in_run_links. }
  destruct (Forall2_lookup_l _ _ _ _ _ Hall Hi) as (run' & Hi' & Hids).
  by exists tf', e', run'.
Qed.

Lemma hyperlinks_point_to_own_links_witness :
  exists tf' e' run',
    find_and_replace_in_text_frame (Sample.frame Sample.payment_run)
      Sample.payment_items (Some Sample.payment_links) Sample.quiet =
      Ret tf' e' /\
    frame_runs tf' !! 0 = Some run' /\
    (forall rId, rId ∈ Font.hlinkClick (font run') ->
       rId ∈ Font.hlinkClick (font Sample.payment_run) \/
       exists item url,
         item ∈ Sample.payment_items /\
         Str.contains item.1 (text Sample.payment_run) = true /\
         default ∅ (Some Sample.payment_links) !! item.1 = Some url /\
         target e' (part Sample.payment_run) rId = Some url).
Proof.
  apply (hyperlinks_point_to_own_links (Sample.frame Sample.payment_run)
           Sample.payment_items (Some Sample.payment_links) Sample.quiet
           0 Sample.payment_run); reflexivity.
Defined.
(** ** Dictionaries and the conversion to strings *)

Lemma stringify_keys (str : JSON -> string) (d : list (string * JSON)) :
  forall d', stringify str d = Py.Returns d' -> map fst d' = map fst d.
Proof.
  induction d as [|[k v] d IH]; intros d' H; simpl in H.
  - by injection H as <-.
  - destruct (to_string str v) as [s|]; [|discriminate].
    destruct (stringify str d) as [d1|]; [|discriminate].
    injection H as <-. simpl. f_equal. by apply IH.
Qed.

Lemma stringify_item (str : JSON -> string) (d : list (string * JSON))
    (k s : string) :
  forall d', stringify str d = Py.Returns d' ->
  Py.item k d = Some (JString s) -> Py.item k d' = Some s.
Proof.
  induction d as [|[k0 v] d IH]; intros d' H Hk; simpl in *; [discriminate|].
  destruct (to_string str v) as [s0|] eqn:Hv; [|discriminate].
  destruct (stringify str d) as [d1|]; [|discriminate].
  injection H as <-. simpl.
  destruct (String.eqb k0 k); [|by apply IH].
  injection Hk as ->. simpl in Hv. congruence.
Qed.

Ltac read_items H :=
  repeat match type of H with
         | context [Py.getitem ?v ?k] =>
             destruct (Py.getitem v k) eqn:?; simpl in H; try discriminate H
         end.

(** What step 6 returns, when it returns. *)
Lemma build_mapping_inv (project_type : string) (i : Inputs)
    (replacements : list (string * JSON)) (links : gmap string string) :
  build_mapping project_type i = Py.Returns (replacements, links) ->
  map fst replacements =
    map fst (Py.update (Py.update [] (base_items i))
               (if String.eqb project_type "marketing"
                then marketing_items i else software_items i)) /\
  (forall k url, links !! k = Some url ->
     Py.item k replacements = Some (JString url)).
Proof.
  intros H. unfold build_mapping, display in H.
  destruct (String.eqb project_type "marketing");
    simpl in H; read_items H;
    injection H as <- <-;
    (split; [vm_compute; reflexivity|]);
    intros k url Hk;
    repeat (apply lookup_insert_Some in Hk as [[<- <-]|[_ Hk]];
            [reflexivity|]);
    by rewrite lookup_empty in Hk.
Qed.

Lemma item_None_keys {V} (key : string) (d : list (string * V)) :
  Py.item key d = None -> forall kv, kv ∈ d -> kv.1 <> key.
Proof.
  induction d as [|[k v] d IH]; intros H kv Hkv; [by apply elem_of_nil in Hkv|].
  simpl in H. destruct (String.eqb_spec k key) as [|Hne]; [discriminate|].
  apply elem_of_cons in Hkv as [->|Hkv]; [exact Hne | by apply IH].
Qed.

Lemma join_lines_Returns (items : list JSON) (s : string) :
  Py.join_lines items = Py.Returns s ->
  exists lines, items = map JString lines /\ s = Str.join Py.newline lines.
Proof.
  revert s. induction items as [|v items IH]; intros s H.
  - injection H as <-. by exists [].
  - destruct v as [| | | |line| |]; try discriminate H.
    simpl in H. destruct items as [|w items].
    + injection H as <-. by exists [line].
    + destruct (Py.join_lines (w :: items)) as [t|] eqn:Ht; [|discriminate].
      injection H as <-. destruct (IH t eq_refl) as (lines & Hitems & ->).
      exists (line :: lines). split; [simpl; by rewrite Hitems|].
      destruct lines as [|l lines]; [discriminate|]. reflexivity.
Qed.

Lemma join_lines_Raises (items : list JSON) (x : Py.Error) :
  Py.join_lines items = Py.Raises x ->
  x = Py.TypeError /\
  exists v, v ∈ items /\ forall s, v <> JString s.
Proof.
  induction items as [|v items IH]; intros H; [discriminate|].
  destruct v as [| | | |line| |];
    try (injection H as <-; split; [reflexivity|]; eexists; split;
         [apply list_elem_of_here | discriminate]).
  simpl in H. destruct items as [|w items]; [discriminate|].
  destruct (Py.join_lines (w :: items)) as [t|y] eqn:Ht; [discriminate|].
  injection H as <-. destruct (IH eq_refl) as (-> & v & Hv & Hnot).
  split; [reflexivity|]. exists v. split; [by apply list_elem_of_further|done].
Qed.

(** Replacing a character by text without it leaves none. *)
Lemma replace_char_gone (c : ascii) (new s : string) :
  lacks c new = true ->
  lacks c (Str.replace (String c "") new s) = true.
Proof.
  intros Hnew. unfold Str.replace.
  induction s as [|d s IH]; [reflexivity|].
  cbn [Str.replace_scan]. rewrite prefix_cons_eq, prefix_nil.
  destruct (ascii_dec c d) as [->|Hne].
  - simpl String.length. rewrite lacks_append, Hnew. exact IH.
  - cbn [lacks]. rewrite IH, andb_true_r.
    by apply negb_true_iff, Ascii.eqb_neq.
Qed.

Lemma sample_mapping :
  proposal_mapping Request.str "marketing" Request.inputs =
    Py.Returns (Request.strings, Request.links).
Proof. vm_compute. reflexivity. Qed.

(** X9: every clickable link is shown as itself.  In the mapping and the
    links that [generate_proposal] builds, for a marketing or a software
    proposal, every key of the clickable links is a key of the mapping, and
    the text put in its place is the URL it links to. *)
Theorem links_are_shown_as_their_url (str : JSON -> string)
    (project_type : string) (i : Inputs)
    (replacements : list (string * string)) (links : gmap string string) :
  proposal_mapping str project_type i = Py.Returns (replacements, links) ->
  forall key url, links !! key = Some url ->
    Py.item key replacements = Some url.
Proof.
  unfold proposal_mapping.
  destruct (build_mapping project_type i) as [[raw links0]|] eqn:Hbuild;
    [|discriminate].
  destruct (stringify str raw) as [strings|] eqn:Hstr; [|discriminate].
  intros H key url Hkey. injection H as <- <-.
  apply build_mapping_inv in Hbuild as [_ Hlinks].
  eapply stringify_item; [exact Hstr|]. by apply Hlinks.
Qed.

Lemma links_are_shown_as_their_url_witness :
  Py.item "{{stripe_payment_link}}" Request.strings =
    Some "https://buy.stripe.com/test_1".
Proof.
  apply (links_are_shown_as_their_url Request.str "marketing" Request.inputs
           Request.strings Request.links sample_mapping).
  vm_compute. reflexivity.
Defined.

(** What the keys of the mapping are. *)
Lemma proposal_mapping_keys (str : JSON -> string) (project_type : string)
    (i : Inputs) (replacements : list (string * string))
    (links : gmap string string) :
  proposal_mapping str project_type i = Py.Returns (replacements, links) ->
  Forall (fun key => is_placeholder key = true) (map fst replacements) /\
  NoDup (map fst replacements).
Proof.
  unfold proposal_mapping.
  destruct (build_mapping project_type i) as [[raw links0]|] eqn:Hbuild;
    [|discriminate].
  destruct (stringify str raw) as [strings|] eqn:Hstr; [|discriminate].
  intros H. injection H as <- <-.
  apply build_mapping_inv in Hbuild as [Hkeys _].
  rewrite (stringify_keys _ _ _ Hstr), Hkeys.
  destruct (String.eqb project_type "marketing"); vm_compute;
    (split; [repeat constructor|]);
    apply (bool_decide_unpack _); vm_compute; exact I.
Qed.

(** X10: the keys that [generate_proposal] builds are placeholder tokens
    [{{name}}], each once, for a marketing proposal and for a software
    proposal alike. *)
Theorem mapping_keys_are_placeholders (str : JSON -> string)
    (project_type : string) (i : Inputs)
    (replacements : list (string * string)) (links : gmap string string) :
  proposal_mapping str project_type i = Py.Returns (replacements, links) ->
  (forall item, item ∈ replacements -> is_placeholder item.1 = true) /\
  NoDup (map fst replacements).
Proof.
  intros [Hkeys Hnodup]%proposal_mapping_keys. split; [|exact Hnodup].
  intros item Hitem. rewrite Forall_forall in Hkeys.
  apply Hkeys, list_elem_of_fmap. by exists item.
Qed.

Lemma mapping_keys_are_placeholders_witness :
  (forall item, item ∈ Request.strings -> is_placeholder item.1 = true) /\
  NoDup (map fst Request.strings).
Proof.
  exact (mapping_keys_are_placeholders Request.str "marketing" Request.inputs
           Request.strings Request.links sample_mapping).
Defined.

(** X11: the conversion loop.  It raises, a [TypeError], exactly when a
    value is a list holding something else than strings.  When it returns,
    the keys are the same in the same order, a string is left as it is, a
    list of strings has become its lines joined by newlines (bullet text),
    and any other value has become its [str]. *)
Theorem stringify_spec (str : JSON -> string) (d : list (string * JSON)) :
  match stringify str d with
  | Py.Returns d' =>
      Forall2 (fun kv kv' =>
                 kv'.1 = kv.1 /\
                 match kv.2 with
                 | JArray items =>
                     exists lines, items = map JString lines /\
                                   kv'.2 = Str.join Py.newline lines
                 | JString s => kv'.2 = s
                 | v => kv'.2 = str v
                 end) d d'
  | Py.Raises x =>
      x = Py.TypeError /\
      exists key items v,
        (key, JArray items) ∈ d /\ v ∈ items /\ forall s, v <> JString s
  end.
Proof.
  induction d as [|[k v] d IH]; simpl; [constructor|].
  destruct (to_string str v) as [s|x] eqn:Hv.
  - destruct (stringify str d) as [d'|x].
    + constructor; [|exact IH]. split; [reflexivity|]. simpl.
      destruct v; simpl in Hv; try (by injection Hv as <-).
      by apply join_lines_Returns.
    + destruct IH as (-> & key & items & w & Hin & Hw & Hnot).
      split; [reflexivity|]. exists key, items, w.
      split; [by apply list_elem_of_further | by split].
  - destruct v; simpl in Hv; try discriminate Hv.
    apply join_lines_Raises in Hv as (-> & w & Hw & Hnot).
    split; [reflexivity|]. exists k, items, w.
    split; [apply list_elem_of_here | by split].
Qed.

(** X12: on the mapping that [generate_proposal] builds, whatever the
    model answered, the fill of a template that is fillable with it
    returns, and a placeholder token of the template (without control
    characters) that is not one of its keys is still in the text of its
    run afterwards. *)
Theorem unknown_token_survives_proposal (str : JSON -> string)
    (project_type : string) (i : Inputs)
    (replacements : list (string * string)) (links : gmap string string)
    (input_file : string) (e : Env) (prs : Presentation) (t : string) :
  proposal_mapping str project_type i = Py.Returns (replacements, links) ->
  packages e input_file = Some prs ->
  fillable replacements prs = true ->
  is_placeholder t = true ->
  Xml.clean t = true ->
  Py.item t replacements = None ->
  exists prs' e',
    replace_placeholders_in_ppt input_file replacements (Some links) e =
      Ret prs' e' /\
    Forall2 (fun r r' => Str.contains t (text r) = true ->
                         Str.contains t (text r') = true)
            (presentation_runs prs) (presentation_runs prs').
Proof.
  intros [Hkeys _]%proposal_mapping_keys Hopen Hfill Ht Hclean Hnew.
  destruct (proj2 (fill_returns replacements (Some links) input_file e prs
                     Hopen) Hfill) as (prs' & e' & Hrun).
  exists prs', e'. split; [exact Hrun|].
  eapply (presentation_rel replacements (Some links) _ (fun _ _ => True));
    try eassumption; try done.
  intros r e0 r' e1 (Htext & _)%replace_in_run_inv. split; [|done].
  intros Hin. rewrite Htext. apply text_after_keeps; try assumption.
  intros item Hitem. split.
  - rewrite Forall_forall in Hkeys. apply Hkeys, list_elem_of_fmap.
    by exists item.
  - by eapply item_None_keys.
Qed.

Lemma unknown_token_survives_proposal_witness :
  exists prs' e',
    replace_placeholders_in_ppt "input.pptx" Request.strings
      (Some Request.links) Sample.disk = Ret prs' e' /\
    Forall2 (fun r r' => Str.contains "{{unused_token}}" (text r) = true ->
                         Str.contains "{{unused_token}}" (text r') = true)
            (presentation_runs Sample.deck) (presentation_runs prs').
Proof.
  apply (unknown_token_survives_proposal Request.str "marketing"
           Request.inputs Request.strings Request.links "input.pptx"
           Sample.disk Sample.deck "{{unused_token}}" sample_mapping).
  - reflexivity.
  - vm_compute. reflexivity.
  - reflexivity.
  - reflexivity.
  - vm_compute. reflexivity.
Defined.

(** ** The endpoints *)

Lemma get_object (members : list (string * JSON)) (key : string)
    (default : JSON) :
  Py.get (JObject members) key default =
    Py.Returns (from_option id default (Py.item key members)).
Proof. simpl. by destruct (Py.item key members). Qed.

Lemma get_not_object (data : JSON) (key : string) (default : JSON) :
  (forall members, data <> JObject members) ->
  Py.get data key default = Py.Raises Py.AttributeError.
Proof. intros H. destruct data; try reflexivity. by destruct (H members). Qed.

Lemma is_project_type_inv (v : JSON) :
  is_project_type v = true ->
  v = JString "marketing" \/ v = JString "software".
Proof.
  destruct v; try discriminate. simpl.
  intros [H|H]%orb_true_iff; apply String.eqb_eq in H; subst; auto.
Qed.

(** What a request that passes the checks of [api_generate_proposal] looks
    like. *)
Lemma check_generate_proposal_accepted (data email user_description
    project_type : JSON) :
  check_generate_proposal data = Accepted email user_description project_type ->
  Py.truth data = true /\
  read_request data = Py.Returns (email, user_description, project_type) /\
  Py.truth email = true /\ Py.truth user_description = true /\
  is_project_type project_type = true.
Proof.
  unfold check_generate_proposal.
  destruct (Py.truth data); [|discriminate]. simpl.
  destruct (read_request data) as [[[e d] p]|]; [|discriminate].
  destruct (Py.truth e) eqn:He; [|discriminate].
  destruct (Py.truth d) eqn:Hd; [|discriminate].
  destruct (is_project_type p) eqn:Hp; [|discriminate].
  simpl. intros [= <- <- <-]. by rewrite He, Hd, Hp.
Qed.

(** X13: the two endpoints let the same requests through.  Whatever the
    body, [api_generate_proposal_info] goes on to [generate_proposal] with
    the same three values as [api_generate_proposal], fails on the same
    exception, and turns a request down exactly when the other one does;
    only the words of the refusal differ. *)
Theorem endpoints_check_alike (data : JSON) :
  match check_generate_proposal data with
  | Accepted email user_description project_type =>
      check_generate_proposal_info data =
        Accepted email user_description project_type
  | Failed x => check_generate_proposal_info data = Failed x
  | Rejected _ => exists error, check_generate_proposal_info data = Rejected error
  end.
Proof.
  unfold check_generate_proposal, check_generate_proposal_info.
  destruct (Py.truth data); simpl; [|by eexists].
  destruct (read_request data) as [[[e d] p]|]; [|reflexivity].
  destruct (Py.truth e), (Py.truth d), (is_project_type p); simpl;
    by first [reflexivity | eexists].
Qed.

(** X14: the guard of [generate_proposal] never fires for a request that
    an endpoint has let through.  The project type of such a request is a
    string, and it is a key of [TEMPLATES], so that neither
    [if project_type not in TEMPLATES] raises nor [TEMPLATES[project_type]]
    fails: the template is one of the two files. *)
Theorem accepted_request_has_template (input input_2 : string)
    (data email user_description project_type : JSON) :
  check_generate_proposal data = Accepted email user_description project_type ->
  exists name,
    project_type = JString name /\
    (template_for (TEMPLATES input input_2) name = Py.Returns input \/
     template_for (TEMPLATES input input_2) name = Py.Returns input_2).
Proof.
  intros (_ & _ & _ & _ & Hp)%check_generate_proposal_accepted.
  apply is_project_type_inv in Hp as [->| ->]; eexists; split;
    try reflexivity; [by left | by right].
Qed.

Lemma accepted_request_has_template_witness :
  exists name,
    JString "marketing" = JString name /\
    (template_for (TEMPLATES "input.pptx" "input_2.pptx") name =
       Py.Returns "input.pptx" \/
     template_for (TEMPLATES "input.pptx" "input_2.pptx") name =
       Py.Returns "input_2.pptx").
Proof.
  apply (accepted_request_has_template "input.pptx" "input_2.pptx"
           Request.plain_body (JString "ada@example.org")
           (JString "A campaign for our new engine") (JString "marketing")).
  reflexivity.
Defined.

(** X15: a body that is not a JSON object.  When the body is of another
    kind, an empty one (null, false, zero, the empty text, the empty list)
    is turned down with "No JSON data provided", and any other one makes
    [data.get] raise AttributeError, which the endpoint answers with status
    500, not 400. *)
Theorem body_that_is_no_object (data : JSON) :
  (forall members, data <> JObject members) ->
  check_generate_proposal data =
    if Py.truth data then Failed Py.AttributeError
    else Rejected "No JSON data provided".
Proof.
  intros H. unfold check_generate_proposal, read_request.
  destruct (Py.truth data); [|reflexivity].
  by rewrite get_not_object.
Qed.

Lemma body_that_is_no_object_witness :
  check_generate_proposal Request.list_body = Failed Py.AttributeError.
Proof.
  apply (body_that_is_no_object Request.list_body). intros members. discriminate.
Defined.

(** X16: a request that does not name a project type is a marketing
    request.  With an email and a description that are not empty and no
    key [project_type] in the body, [api_generate_proposal] goes on with
    "marketing". *)
Theorem missing_project_type_is_marketing (members : list (string * JSON))
    (email user_description : JSON) :
  Py.item "email" members = Some email ->
  Py.truth email = true ->
  Py.item "user_description" members = Some user_description ->
  Py.truth user_description = true ->
  Py.item "project_type" members = None ->
  check_generate_proposal (JObject members) =
    Accepted email user_description (JString "marketing").
Proof.
  intros He Hte Hd Htd Hp.
  unfold check_generate_proposal, read_request.
  rewrite !get_object, He, Hd, Hp. simpl.
  rewrite Hte, Htd. simpl.
  destruct members; [discriminate|reflexivity].
Qed.

Lemma missing_project_type_is_marketing_witness :
  check_generate_proposal Request.plain_body =
    Accepted (JString "ada@example.org")
             (JString "A campaign for our new engine") (JString "marketing").
Proof.
  by apply (missing_project_type_is_marketing _ (JString "ada@example.org")
              (JString "A campaign for our new engine")).
Defined.

(** X17: a project type that is given is never replaced by the default.
    When the body has a key [project_type] whose value is not one of the
    two texts (null, a number, a list, another text), the request is turned
    down, however good the rest of it is: the default of [data.get] stands
    in for a missing key only. *)
Theorem given_project_type_is_not_defaulted (members : list (string * JSON))
    (project_type : JSON) :
  Py.item "project_type" members = Some project_type ->
  is_project_type project_type = false ->
  exists error, check_generate_proposal (JObject members) = Rejected error.
Proof.
  intros Hp Hno. unfold check_generate_proposal, read_request.
  rewrite !get_object, Hp.
  destruct (Py.truth (JObject members)); simpl; [|by eexists].
  destruct (Py.truth _); simpl; [|by eexists].
  destruct (Py.truth _); simpl; [|by eexists].
  rewrite Hno. by eexists.
Qed.

Lemma given_project_type_is_not_defaulted_witness :
  exists error, check_generate_proposal Request.null_type_body = Rejected error.
Proof.
  by apply (given_project_type_is_not_defaulted _ JNull).
Defined.

(** X18: the name of the download has no space in it.  For a request that
    an endpoint has let through and a client name that is a text, the file
    name is made, it starts with the capitalised project type and
    "_Proposal_", and whatever spaces the client name has are gone. *)
Theorem download_name_has_no_space (project_type client_name : string) :
  is_project_type (JString project_type) = true ->
  exists name,
    download_name project_type (JString client_name) = Py.Returns name /\
    lacks " " name = true /\
    (String.prefix "Marketing_Proposal_" name = true \/
     String.prefix "Software_Proposal_" name = true).
Proof.
  intros [[= ->]|[= ->]]%is_project_type_inv; eexists;
    (split; [reflexivity|]).
  - change (Py.title "marketing") with "Marketing". split; [|left; apply (prefix_append "Marketing_Proposal_")].
    rewrite !lacks_append, (replace_char_gone " " "_" client_name) by done.
    reflexivity.
  - change (Py.title "software") with "Software". split; [|right; apply (prefix_append "Software_Proposal_")].
    rewrite !lacks_append, (replace_char_gone " " "_" client_name) by done.
    reflexivity.
Qed.

Lemma download_name_has_no_space_witness :
  exists name,
    download_name "marketing" (JString "Ada Lovelace") = Py.Returns name /\
    lacks " " name = true /\
    (String.prefix "Marketing_Proposal_" name = true \/
     String.prefix "Software_Proposal_" name = true).
Proof.
  by apply (download_name_has_no_space "marketing" "Ada Lovelace").
Defined.
